(** * PDF title matcher: title extraction, fuzzy matching, catalog update

    A shallow embedding of [pdf_title_matcher.py]:
    - [extract_title_from_text], [clean_title_line], [clean_full_title]
      (the Title Extractor),
    - [match_titles_fuzzy] (the Fuzzy Matcher),
    - [update_excel_file] (the Reconciliation Reporter),
    and the properties the specification states about them.

    Python values are modelled as follows.
    - [str] is a list of character codes from 0 to 255 (Latin-1).  White
      space, digits, upper and lower case are those of Python's [str]
      methods and of [re] on these codes.
    - A [dict] is an association list in insertion order.
    - An [int] is a [Z]; list positions and row labels are [nat].
    - A call that can raise ([list.index], [list[i]]) returns an [option]. *)

From Stdlib Require Import Ascii String DecimalString.
From Stdlib Require Import ZArith Lia Bool Arith List Sorted.
Import ListNotations.

Set Implicit Arguments.

(** ** Python strings *)

Module PyStr.

Definition str := list ascii.

(** A literal: [py "abc"] is the Python string ['abc']. *)
Definition py (s : string) : str := list_ascii_of_string s.

(** The newline character ['\n']. *)
Definition nl : ascii := ascii_of_nat 10.

Definition in_range (lo hi : nat) (c : ascii) : bool :=
  let n := nat_of_ascii c in (lo <=? n) && (n <=? hi).

(** [c.isspace()], which is also [\s]: tab, line feed, vertical tab, form
    feed, carriage return, the four separators 28..31, the space, the
    next-line character 133 and the no-break space 160. *)
Definition isspace (c : ascii) : bool :=
  in_range 9 13 c || in_range 28 32 c || in_range 133 133 c
  || in_range 160 160 c.

(** [\d]: the decimal digits. *)
Definition isdigit (c : ascii) : bool := in_range 48 57 c.

(** [c.isupper()]: A to Z, and the capital letters 192..222 but the
    multiplication sign 215. *)
Definition isupper_char (c : ascii) : bool :=
  in_range 65 90 c || in_range 192 214 c || in_range 216 222 c.

(** [c.islower()]: a to z, the ordinal indicators 170 and 186, the micro
    sign 181, and the small letters 223..255 but the division sign 247. *)
Definition islower_char (c : ascii) : bool :=
  in_range 97 122 c || in_range 170 170 c || in_range 181 181 c
  || in_range 186 186 c || in_range 223 246 c || in_range 248 255 c.

(** [c.lower()]: a capital letter moves 32 codes up. *)
Definition lower_char (c : ascii) : ascii :=
  if isupper_char c then ascii_of_nat (nat_of_ascii c + 32) else c.

(** [s.lower()] *)
Definition lower (s : str) : str := map lower_char s.

(** [s.isupper()]: no lowercase letter and at least one uppercase one. *)
Definition isupper (s : str) : bool :=
  forallb (fun c => negb (islower_char c)) s && existsb isupper_char s.

Definition str_eqb (a b : str) : bool :=
  if list_eq_dec ascii_dec a b then true else false.

Fixpoint drop_while (p : ascii -> bool) (s : str) : str :=
  match s with
  | [] => []
  | c :: t => if p c then drop_while p t else s
  end.

Definition lstrip (s : str) : str := drop_while isspace s.
Definition rstrip (s : str) : str := rev (drop_while isspace (rev s)).

(** [s.strip()] *)
Definition strip (s : str) : str := rstrip (lstrip s).

(** [s.startswith(p)] *)
Fixpoint startswith (p s : str) : bool :=
  match p, s with
  | [], _ => true
  | _ :: _, [] => false
  | a :: p', b :: s' => Ascii.eqb a b && startswith p' s'
  end.

(** [p in s] for strings: [p] occurs as a substring of [s]. *)
Fixpoint contains (p s : str) : bool :=
  startswith p s ||
  match s with
  | [] => false
  | _ :: t => contains p t
  end.

(** [any(x in s for x in words)] *)
Definition any_in (words : list str) (s : str) : bool :=
  existsb (fun x => contains x s) words.

(** [s.endswith(('.', '?', '!'))] *)
Definition ends_sentence (s : str) : bool :=
  match rev s with
  | c :: _ => existsb (Ascii.eqb c) (py ".?!")
  | [] => false
  end.

(** [s.split('\n')] *)
Fixpoint split_lines (s : str) : list str :=
  match s with
  | [] => [[]]
  | c :: t =>
      if Ascii.eqb c nl then [] :: split_lines t
      else match split_lines t with
           | h :: r => (c :: h) :: r
           | [] => [[c]]
           end
  end.

(** [sep.join(parts)] *)
Fixpoint join (sep : str) (parts : list str) : str :=
  match parts with
  | [] => []
  | [p] => p
  | p :: rest => p ++ sep ++ join sep rest
  end.

(** [max(items, key=key)] on a list: the first item among those with the
    largest key; [None] stands for the [ValueError] on an empty list. *)
Fixpoint max_from {A} (key : A -> Z) (best : A) (items : list A) : A :=
  match items with
  | [] => best
  | x :: rest => max_from key (if (key best <? key x)%Z then x else best) rest
  end.

Definition py_max {A} (key : A -> Z) (items : list A) : option A :=
  match items with
  | [] => None
  | x :: rest => Some (max_from key x rest)
  end.

(** [b] is the first of the items with the largest key: the items in
    front of it have smaller keys, the items after it have no larger
    ones. *)
Definition first_max {A} (key : A -> Z) (b : A) (items : list A) : Prop :=
  exists pre post,
    items = pre ++ b :: post
    /\ Forall (fun x => (key x < key b)%Z) pre
    /\ Forall (fun x => (key x <= key b)%Z) post.

(** [str(n)] for an [int]. *)
Definition str_of_int (n : Z) : str := py (NilZero.string_of_int (Z.to_int n)).

End PyStr.
Import PyStr.

(** ** The regular expressions of the cleaning functions

    Each substitution of the source is written out as the function on
    strings that [re.sub] computes for that pattern. *)

Module Re.

(** [re.sub(r'^\d+\s*', '', line)]: a leading run of digits goes, with the
    white space after it. *)
Definition sub_leading_number (line : str) : str :=
  match line with
  | c :: _ => if isdigit c then drop_while isspace (drop_while isdigit line) else line
  | [] => []
  end.

(** The text left in front of a trailing [\s*\d+], read on the reversed
    string. *)
Definition cut_number_rev (r : str) : str :=
  rev (drop_while isspace (drop_while isdigit r)).

(** [re.sub(r'\s*\d+$', '', line)]: a trailing run of digits goes, with the
    white space before it.  [$] also matches just before a final newline,
    which then stays. *)
Definition sub_trailing_number (line : str) : str :=
  match rev line with
  | [] => []
  | c :: r =>
      if isdigit c then cut_number_rev (c :: r)
      else if Ascii.eqb c nl then
        match r with
        | d :: _ => if isdigit d then cut_number_rev r ++ [nl] else line
        | [] => line
        end
      else line
  end.

(** [re.sub(r'\s+', ' ', s)]: every run of white space becomes one space. *)
Fixpoint sub_spaces (s : str) : str :=
  match s with
  | [] => []
  | c :: t =>
      if isspace c then
        match t with
        | c' :: _ => if isspace c' then sub_spaces t else " "%char :: sub_spaces t
        | [] => [" "%char]
        end
      else c :: sub_spaces t
  end.

(** One alternative of [^(the|an|a)\s+] under [re.IGNORECASE]: the word,
    then at least one white space character. *)
Definition match_article (w title : str) : option str :=
  if str_eqb (lower (firstn (length w) title)) w then
    match skipn (length w) title with
    | c :: rest => if isspace c then Some (drop_while isspace rest) else None
    | [] => None
    end
  else None.

(** [re.sub(r'^(the|an|a)\s+', '', title, flags=re.IGNORECASE)]; the
    alternatives are tried in the order written. *)
Definition sub_leading_article (title : str) : str :=
  match match_article (py "the") title with
  | Some r => r
  | None =>
      match match_article (py "an") title with
      | Some r => r
      | None =>
          match match_article (py "a") title with
          | Some r => r
          | None => title
          end
      end
  end.

(** [re.sub(r'\s*[,;]\s*$', '', title)] *)
Definition sub_trailing_comma (title : str) : str :=
  match drop_while isspace (rev title) with
  | c :: r =>
      if existsb (Ascii.eqb c) (py ",;") then rev (drop_while isspace r) else title
  | [] => title
  end.

End Re.

(** ** The Title Extractor *)

Module TitleExtractor.

Definition line_noise : list str :=
  [py "www."; py "copyright"; py "journal"; py "vol."; py "no."; py "page"].

(** [clean_title_line] *)
Definition clean_title_line (line : str) : str :=
  match line with
  | [] => []
  | _ =>
      let line := Re.sub_leading_number line in
      let line := Re.sub_trailing_number line in
      let line := strip (Re.sub_spaces line) in
      let line_lower := lower line in
      if any_in line_noise line_lower then [] else line
  end.

(** [clean_full_title] *)
Definition clean_full_title (title : str) : str :=
  match title with
  | [] => []
  | _ =>
      let title := strip (Re.sub_spaces title) in
      let title := Re.sub_leading_article title in
      let title := Re.sub_trailing_comma title in
      strip title
  end.

Definition header_words : list str :=
  [py "www.ausmt.org"; py "copyright"; py "journal of automation"; py "vol."; py "no."].

Definition section_words : list str :=
  [py "editorial"; py "original article"; py "trend"; py "review"; py "research"].

Definition stop_words : list str :=
  [py "abstract"; py "introduction"; py "keywords"; py "received:"; py "doi:"].

(** The scan for the start of the title over [enumerate(lines[:15])],
    from position [i] on; [None] when the loop ends without a [break]. *)
Fixpoint scan_start (i : nat) (lines : list str) : option nat :=
  match lines with
  | [] => None
  | line :: rest =>
      let line_lower := lower line in
      if any_in header_words line_lower then scan_start (S i) rest
      else if any_in section_words line_lower then Some (S i)
      else if (20 <? length line) && (i <? 10) then Some i
      else scan_start (S i) rest
  end.

(** [title_start_idx] after the scan; it starts as 0. *)
Definition title_start_idx (lines : list str) : nat :=
  match scan_start 0 (firstn 15 lines) with
  | Some i => i
  | None => 0
  end.

(** The test on a cleaned line that looks like author information. *)
Definition author_like (cleaned_line : str) : bool :=
  (length cleaned_line <? 50) &&
  (isupper cleaned_line
   || contains (py "@") cleaned_line
   || contains (py "university") (lower cleaned_line)).

(** The loop that collects the title fragments, over the lines
    [lines[title_start_idx : min(title_start_idx + 5, len(lines))]];
    the result is [title_lines]. *)
Fixpoint collect_title_lines (window : list str) : list str :=
  match window with
  | [] => []
  | line :: rest =>
      let cleaned_line := clean_title_line line in
      match cleaned_line with
      | [] => collect_title_lines rest
      | _ =>
          if any_in stop_words (lower cleaned_line) then []
          else if author_like cleaned_line then []
          else if ends_sentence cleaned_line then [cleaned_line]
          else cleaned_line :: collect_title_lines rest
      end
  end.

(** The window of at most five lines from the start index. *)
Definition title_window (lines : list str) : list str :=
  firstn 5 (skipn (title_start_idx lines) lines).

(** The first attempt: the title assembled from the collected fragments,
    when its length is strictly between 10 and 300. *)
Definition assembled_title (lines : list str) : option str :=
  if title_start_idx lines <? length lines then
    match collect_title_lines (title_window lines) with
    | [] => None
    | title_lines =>
        let full_title := clean_full_title (join (py " ") title_lines) in
        if (10 <? length full_title) && (length full_title <? 300)
        then Some full_title else None
    end
  else None.

(** The fallback list [meaningful_lines]. *)
Definition meaningful_lines (lines : list str) : list str :=
  filter (fun cleaned => (15 <? length cleaned) && (length cleaned <? 200))
         (map clean_title_line (firstn 20 lines)).

(** The fallback: the longest meaningful line, cleaned. *)
Definition longest_line_title (lines : list str) : option str :=
  match py_max (fun l => Z.of_nat (length l)) (meaningful_lines lines) with
  | Some longest => Some (clean_full_title longest)
  | None => None
  end.

(** The non-empty trimmed lines of the text. *)
Definition text_lines (text : str) : list str :=
  map strip (filter (fun line => negb (str_eqb (strip line) [])) (split_lines text)).

(** [extract_title_from_text]; [None] is Python's [None]. *)
Definition extract_title_from_text (text : str) : option str :=
  let lines := text_lines text in
  match lines with
  | [] => None
  | _ =>
      match assembled_title lines with
      | Some full_title => Some full_title
      | None => longest_line_title lines
      end
  end.

End TitleExtractor.

(** ** Python dictionaries *)

Module PyDict.

Section Dict.
Variables K V : Type.
Variable eqb : K -> K -> bool.

(** The items of the dictionary in insertion order. *)
Definition dict := list (K * V).

(** [d.get(k)] *)
Fixpoint dict_get (k : K) (d : dict) : option V :=
  match d with
  | [] => None
  | (k', v) :: rest => if eqb k k' then Some v else dict_get k rest
  end.

(** [d[k] = v]: a key already present keeps its place, a new key goes
    to the end. *)
Fixpoint dict_set (k : K) (v : V) (d : dict) : dict :=
  match d with
  | [] => [(k, v)]
  | (k', v') :: rest =>
      if eqb k k' then (k', v) :: rest else (k', v') :: dict_set k v rest
  end.

(** [list(d.keys())] and [list(d.values())] *)
Definition keys (d : dict) : list K := map fst d.
Definition values (d : dict) : list V := map snd d.
End Dict.

End PyDict.
Import PyDict.

(** ** The Fuzzy Matcher *)

Module Matcher.

(** The labels ['token_sort'], ['partial'] and ['token_set']. *)
Inductive method := token_sort | partial | token_set.

(** The place of a strategy in the order the matcher tries them. *)
Definition method_rank (m : method) : nat :=
  match m with
  | token_sort => 0
  | partial => 1
  | token_set => 2
  end.

(** The value stored in [matches[idx]]. *)
Record match_info := MatchInfo {
  filename : str;
  pdf_title : str;
  confidence : Z;
  method_used : method
}.

(** [l.index(x)]: the first position of [x]; [None] stands for the
    [ValueError]. *)
Fixpoint list_index (x : str) (l : list str) : option nat :=
  match l with
  | [] => None
  | y :: rest => if str_eqb x y then Some 0 else option_map S (list_index x rest)
  end.

Section Scorers.

(** The three similarity functions [fuzz.token_sort_ratio],
    [fuzz.partial_ratio] and [fuzz.token_set_ratio] belong to the
    fuzzywuzzy library; the matcher is verified for any three functions
    from two strings to an [int]. *)
Variables token_sort_ratio partial_ratio token_set_ratio : str -> str -> Z.

(** Modelled from the spec: [process.extractOne] is fuzzywuzzy's, not the
    repository's.  For one strategy it takes the single best-scoring
    title across the whole index, the first one when several score
    best, and nothing on an empty index; the library keeps the choices
    that reach its default cut-off of 0. *)
Definition extractOne (scorer : str -> str -> Z) (query : str)
    (choices : list str) : option (str * Z) :=
  py_max snd
    (filter (fun m => (0 <=? snd m)%Z)
       (map (fun choice => (choice, scorer query choice)) choices)).

(** The similarity function the matcher uses under each label. *)
Definition scorer_of (m : method) : str -> str -> Z :=
  match m with
  | token_sort => token_sort_ratio
  | partial => partial_ratio
  | token_set => token_set_ratio
  end.

Section Run.
Variable pdf_titles : dict str str.
Variable threshold : Z.

Definition pdf_title_list : list str := values pdf_titles.
Definition pdf_filename_list : list str := keys pdf_titles.

(** What one strategy adds to [matches_found]. *)
Definition found (m : method) (scorer : str -> str -> Z) (excel_title : str)
    : list (method * str * Z) :=
  match extractOne scorer excel_title pdf_title_list with
  | Some match_ => [(m, fst match_, snd match_)]
  | None => []
  end.

(** [matches_found] for one article, in the order of the source. *)
Definition matches_found (excel_title : str) : list (method * str * Z) :=
  found token_sort token_sort_ratio excel_title
  ++ found partial partial_ratio excel_title
  ++ found token_set token_set_ratio excel_title.

(** [max(matches_found, key=lambda x: x[2])] *)
Definition best_match (excel_title : str) : option (method * str * Z) :=
  py_max (fun x => snd x) (matches_found excel_title).

(** The file name of a matched title:
    [pdf_filename_list[pdf_title_list.index(matched_pdf_title)]]. *)
Definition filename_of (matched_pdf_title : str) : option str :=
  match list_index matched_pdf_title pdf_title_list with
  | Some pdf_idx => nth_error pdf_filename_list pdf_idx
  | None => None
  end.

(** The loop over [enumerate(excel_titles)], from position [idx] on.
    A title [None] is a missing one ([pd.isna]). *)
Fixpoint match_loop (idx : nat) (excel_titles : list (option str))
    (matches : dict nat match_info) (unmatched_articles : list (nat * str))
    : option (dict nat match_info * list (nat * str)) :=
  match excel_titles with
  | [] => Some (matches, unmatched_articles)
  | None :: rest => match_loop (S idx) rest matches unmatched_articles
  | Some excel_title :: rest =>
      match best_match excel_title with
      | Some (method, matched_pdf_title, confidence) =>
          if (threshold <=? confidence)%Z then
            match filename_of matched_pdf_title with
            | Some pdf_filename =>
                match_loop (S idx) rest
                  (dict_set Nat.eqb idx
                     (MatchInfo pdf_filename matched_pdf_title confidence method)
                     matches)
                  unmatched_articles
            | None => None
            end
          else
            match_loop (S idx) rest matches
              (unmatched_articles ++ [(idx, excel_title)])
      | None =>
          match_loop (S idx) rest matches
            (unmatched_articles ++ [(idx, excel_title)])
      end
  end.

(** [filename not in matched_filenames] *)
Definition not_matched (matches : dict nat match_info) (name : str) : bool :=
  negb (existsb (str_eqb name) (map filename (values matches))).

(** [match_titles_fuzzy]: the matches, the unmatched articles and the
    unmatched files; [None] if an exception were raised. *)
Definition match_titles_fuzzy (excel_titles : list (option str))
    : option (dict nat match_info * list (nat * str) * list str) :=
  match match_loop 0 excel_titles [] [] with
  | Some (matches, unmatched_articles) =>
      Some (matches, unmatched_articles,
            filter (not_matched matches) (keys pdf_titles))
  | None => None
  end.

(** The decision for one article with a title, read off the loop body:
    the entry stored for it, or [None] when it is left unmatched. *)
Definition record_match (excel_title : str) : option match_info :=
  match best_match excel_title with
  | Some (method, matched_pdf_title, confidence) =>
      if (threshold <=? confidence)%Z then
        match filename_of matched_pdf_title with
        | Some pdf_filename =>
            Some (MatchInfo pdf_filename matched_pdf_title confidence method)
        | None => None
        end
      else None
  | None => None
  end.

(** The entries the loop adds to [matches] and to
    [unmatched_articles] from position [idx] on. *)
Fixpoint matched_from (idx : nat) (excel_titles : list (option str))
    : dict nat match_info :=
  match excel_titles with
  | [] => []
  | None :: rest => matched_from (S idx) rest
  | Some excel_title :: rest =>
      match record_match excel_title with
      | Some info => (idx, info) :: matched_from (S idx) rest
      | None => matched_from (S idx) rest
      end
  end.

Fixpoint unmatched_from (idx : nat) (excel_titles : list (option str))
    : list (nat * str) :=
  match excel_titles with
  | [] => []
  | None :: rest => unmatched_from (S idx) rest
  | Some excel_title :: rest =>
      match record_match excel_title with
      | Some _ => unmatched_from (S idx) rest
      | None => (idx, excel_title) :: unmatched_from (S idx) rest
      end
  end.

(** A file name bound by some entry of [matches]. *)
Definition claimed (matches : dict nat match_info) (name : str) : Prop :=
  exists idx info, In (idx, info) matches /\ filename info = name.

End Run.
End Scorers.

(** Modelled from the spec: the similarity functions are fuzzywuzzy's, not
    the repository's.  A similarity score is an integer up to 100, and
    two identical titles score 100. *)
Definition similarity (scorer : str -> str -> Z) : Prop :=
  (forall a b, (scorer a b <= 100)%Z) /\ (forall a, scorer a a = 100%Z).

(** A scorer to run the matcher on concrete titles: 100 on identical
    titles and 0 otherwise.  The examples below compare only titles that
    are identical or have no character in common, where fuzzywuzzy's
    three scorers give 100 and 0 too. *)
Definition exact_ratio (a b : str) : Z := if str_eqb a b then 100%Z else 0%Z.

End Matcher.
Import Matcher.

(** ** The Reconciliation Reporter *)

Module Reporter.

(** The value of one cell of the table. *)
Inductive cell := Text (s : str) | Num (n : Z) | NaN.

(** A [DataFrame]: the row labels, and the columns in order, each with
    one cell per row. *)
Record DataFrame := Frame {
  index : list nat;
  columns : dict str (list cell)
}.

(** [len(df)] *)
Definition nrows (df : DataFrame) : nat := length (index df).

(** [df[name] = value] for a scalar: a column of that name is replaced
    where it stands, a new name is appended as the last column. *)
Definition set_column (name : str) (value : cell) (df : DataFrame) : DataFrame :=
  Frame (index df) (dict_set str_eqb name (repeat value (nrows df)) (columns df)).

(** The cells of one column after [value] is written to the rows
    labelled [idx]. *)
Definition set_rows (idx : nat) (value : cell) (labels : list nat)
    (col : list cell) : list cell :=
  map (fun lc => if Nat.eqb (fst lc) idx then value else snd lc) (combine labels col).

(** [df.loc[idx, name] = value] for a column [name] of the frame: the
    rows labelled [idx] get the value; when no row has that label, a row
    is added at the end, with [NaN] in the other columns. *)
Definition loc_set (idx : nat) (name : str) (value : cell) (df : DataFrame)
    : DataFrame :=
  if existsb (Nat.eqb idx) (index df) then
    Frame (index df)
      (map (fun nc => if str_eqb (fst nc) name
                      then (fst nc, set_rows idx value (index df) (snd nc))
                      else nc)
           (columns df))
  else
    Frame (index df ++ [idx])
      (map (fun nc => (fst nc, snd nc ++ [if str_eqb (fst nc) name then value else NaN]))
           (columns df)).

Definition file_name : str := py "File Name".
Definition match_confidence : str := py "Match Confidence".

(** [f"{confidence}%"] *)
Definition percent (confidence : Z) : str := str_of_int confidence ++ py "%".

(** The body of the loop over [matches.items()]. *)
Definition fill_match (df : DataFrame) (item : nat * match_info) : DataFrame :=
  let (idx, info) := item in
  let df := loc_set idx file_name (Text (filename info)) df in
  loc_set idx match_confidence (Text (percent (confidence info))) df.

(** [update_excel_file], from the frame read from the file to the frame
    it returns and writes. *)
Definition update_excel_file (df : DataFrame) (matches : dict nat match_info)
    : DataFrame :=
  let df := set_column file_name (Text []) df in
  let df := set_column match_confidence (Text []) df in
  fold_left fill_match matches df.

(** The cells of the two added columns for row [i]. *)
Definition file_name_cell (matches : dict nat match_info) (i : nat) : cell :=
  match dict_get Nat.eqb i matches with
  | Some info => Text (filename info)
  | None => Text []
  end.

Definition confidence_cell (matches : dict nat match_info) (i : nat) : cell :=
  match dict_get Nat.eqb i matches with
  | Some info => Text (percent (confidence info))
  | None => Text []
  end.

(** The frame with two more columns at the end, [File Name] and
    [Match Confidence], whose cells are given row by row. *)
Definition augmented (df : DataFrame) (names confidences : nat -> cell)
    : DataFrame :=
  Frame (index df)
    (columns df ++ [(file_name, map names (index df));
                    (match_confidence, map confidences (index df))]).

End Reporter.
Import TitleExtractor Reporter.

(** ** The Corpus Indexer *)

Module Indexer.

(** What [PdfReader] gives for one file: [None] when opening the file
    raises; otherwise the pages, each with the result of its
    [extract_text()], [None] when that call raises or gives no string. *)
Definition pdf := option (list (option str)).

(** The loop [text += page_text + "\n"] over the pages read; [None] when
    an exception stops it. *)
Fixpoint read_pages (pages : list (option str)) (text : str) : option str :=
  match pages with
  | [] => Some text
  | None :: _ => None
  | Some page_text :: rest => read_pages rest (text ++ page_text ++ [nl])
  end.

(** [extract_pdf_title]; every exception ends in [return None]. *)
Definition extract_pdf_title (reader : pdf) (max_pages : nat) : option str :=
  match reader with
  | None => None
  | Some pages =>
      let pages_to_read := Nat.min max_pages (length pages) in
      match read_pages (firstn pages_to_read pages) [] with
      | None => None
      | Some text =>
          match strip text with
          | [] => None
          | text => extract_title_from_text text
          end
      end
  end.

(** The body of the loop of [process_all_pdfs] for one file of the
    folder: the title is stored when it is a non-empty string. *)
Definition index_file (pdf_titles : dict str str) (pdf_file : str * pdf)
    : dict str str :=
  match extract_pdf_title (snd pdf_file) 2 with
  | Some (c :: t) => dict_set str_eqb (fst pdf_file) (c :: t) pdf_titles
  | _ => pdf_titles
  end.

(** [process_all_pdfs], on the files of the folder with what the reader
    gives for each. *)
Definition process_all_pdfs (pdf_files : list (str * pdf)) : dict str str :=
  fold_left index_file pdf_files [].

(** The entries of the index come from files of the folder. *)
Definition from_files (pdf_files : list (str * pdf)) (d : dict str str) : Prop :=
  NoDup (keys d)
  /\ forall name title,
      In (name, title) d ->
      title <> []
      /\ exists reader,
          In (name, reader) pdf_files
          /\ extract_pdf_title reader 2 = Some title.

End Indexer.
Import Indexer.

(** ** Shapes of strings and frames *)

Module Shape.

(** The white space of the string is single spaces: no other white space
    character, and no two in a row. *)
Fixpoint single_spaced (s : str) : bool :=
  match s with
  | [] => true
  | c :: t =>
      if isspace c then
        Ascii.eqb c " "%char
        && match t with
           | c' :: _ => negb (isspace c')
           | [] => true
           end
        && single_spaced t
      else single_spaced t
  end.

(** Every column of the frame has one cell per row. *)
Definition rectangular (df : DataFrame) : Prop :=
  Forall (fun nc => length (snd nc) = nrows df) (columns df).

(** The frame [pd.read_excel] gives for a catalog of [n] rows has the row
    labels 0, 1, ..., n-1. *)
Definition range_index (n : nat) (df : DataFrame) : Prop :=
  index df = seq 0 n.

End Shape.
Import Shape.

(** ** Inputs of the examples *)

Module Samples.

(** The text of the specification's example for the Title Extractor. *)
Definition spec_text : str :=
  join [nl]
    [py "Vol. 3, No. 2"; py "Original Article";
     py "A Study of Fuzzy Reconciliation Systems"; py "John Smith, MIT";
     py "Abstract: ..."].

(** A title line followed by an author line in capitals. *)
Definition title_then_author : list str :=
  [py "A Study of Fuzzy Reconciliation Systems"; py "JOHN SMITH"; py "Second line"].

(** An index of one document, and two articles with its title. *)
Definition one_pdf : dict str str := [(py "d.pdf", py "x")].
Definition two_articles : list (option str) := [Some (py "x"); Some (py "x")].

(** A catalog whose second article has no title. *)
Definition untitled : list (option str) := [Some (py "x"); None].

(** Two articles with a title that has no character in common with the
    title of the one document. *)
Definition far_pdf : dict str str := [(py "d.pdf", py "xyz")].
Definition far_articles : list (option str) := [Some (py "abc"); Some (py "abc")].

(** An index in which two documents carry the same title. *)
Definition twin_pdfs : dict str str :=
  [(py "a.pdf", py "x"); (py "b.pdf", py "x"); (py "c.pdf", py "y")].

(** A catalog that already has a column named [File Name]. *)
Definition named_frame : DataFrame :=
  Frame [0] [(py "Article", [Text (py "x")]); (py "File Name", [Text (py "kept.pdf")])].

Definition plain_frame : DataFrame :=
  Frame [0; 1] [(py "Article", [Text (py "x"); Text (py "y")])].

Definition one_match : dict nat match_info :=
  [(1, MatchInfo (py "d.pdf") (py "y") 87 partial)].

End Samples.

Module MoreSamples.

(** A text of white space only. *)
Definition blank_text : str := [" "%char; nl; " "%char; " "%char; nl].

(** Twenty-one lines, and the same with another last line. *)
Definition long_text (last : str) : str :=
  join [nl] (repeat (py "Robots") 20 ++ [last]).

(** A file with three pages, the third unreadable. *)
Definition three_pages : list (option str) :=
  [Some (py "A Study of Fuzzy Reconciliation Systems"); Some (py "page two"); None].

(** A frame that has the two columns of the reporter already. *)
Definition rerun_frame : DataFrame :=
  Frame [0]
    [(py "Article", [Text (py "x")]); (py "File Name", [Text (py "d.pdf")]);
     (py "Match Confidence", [Text (py "100%")])].

End MoreSamples.

(** * Properties *)

(** ** Lengths under the cleaning functions *)

Section Lengths.

Lemma drop_while_length (p : ascii -> bool) (s : str) :
  length (drop_while p s) <= length s.
Proof.
  induction s as [|c t IH]; simpl; [lia|].
  destruct (p c); simpl; lia.
Qed.

Lemma strip_length (s : str) : length (strip s) <= length s.
Proof.
  unfold strip, rstrip, lstrip.
  rewrite length_rev.
  etransitivity; [apply drop_while_length|].
  rewrite length_rev. apply drop_while_length.
Qed.

Lemma sub_spaces_length (s : str) : length (Re.sub_spaces s) <= length s.
Proof.
  induction s as [|c t IH]; [simpl; lia|].
  cbn [Re.sub_spaces].
  destruct (isspace c); [|cbn [length]; lia].
  destruct t as [|c' t']; [cbn [length]; lia|].
  destruct (isspace c'); cbn [length] in *; lia.
Qed.

Lemma sub_leading_number_length (s : str) :
  length (Re.sub_leading_number s) <= length s.
Proof.
  unfold Re.sub_leading_number.
  destruct s as [|c t]; [simpl; lia|].
  destruct (isdigit c); [|lia].
  etransitivity; apply drop_while_length.
Qed.

Lemma cut_number_rev_length (r : str) : length (Re.cut_number_rev r) <= length r.
Proof.
  unfold Re.cut_number_rev. rewrite length_rev.
  etransitivity; apply drop_while_length.
Qed.

Lemma sub_trailing_number_length (s : str) :
  length (Re.sub_trailing_number s) <= length s.
Proof.
  unfold Re.sub_trailing_number.
  assert (E : length s = length (rev s)) by (symmetry; apply length_rev).
  destruct (rev s) as [|c r]; [simpl; lia|].
  destruct (isdigit c).
  - rewrite E. apply cut_number_rev_length.
  - destruct (Ascii.eqb c nl); [|lia].
    destruct r as [|d r']; [lia|].
    destruct (isdigit d); [|lia].
    rewrite length_app, E. simpl.
    pose proof (cut_number_rev_length (d :: r')). simpl in *. lia.
Qed.

Lemma clean_title_line_length (line : str) :
  length (clean_title_line line) <= length line.
Proof.
  unfold clean_title_line.
  destruct line as [|c t]; [simpl; lia|].
  match goal with |- context [if ?b then _ else _] => destruct b end; [simpl; lia|].
  etransitivity; [apply strip_length|].
  etransitivity; [apply sub_spaces_length|].
  etransitivity; [apply sub_trailing_number_length|].
  apply sub_leading_number_length.
Qed.

End Lengths.

(** ** The Title Extractor *)

Section TitleExtractorFacts.

(** A line that looks like author information is never an empty one. *)
Lemma author_like_nonempty (c : str) : author_like c = true -> c <> [].
Proof. intros H E. subst c. discriminate H. Qed.

(** The loop body of the collection, as an equation. *)
Lemma collect_title_lines_cons (line : str) (rest : list str) :
  collect_title_lines (line :: rest) =
  match clean_title_line line with
  | [] => collect_title_lines rest
  | _ =>
      if any_in stop_words (lower (clean_title_line line)) then []
      else if author_like (clean_title_line line) then []
      else if ends_sentence (clean_title_line line) then [clean_title_line line]
      else clean_title_line line :: collect_title_lines rest
  end.
Proof. reflexivity. Qed.

(** A line that stops the collection contributes nothing, and neither
    does any line after it. *)
Lemma collect_cut (pre rest : list str) (line : str) :
  clean_title_line line <> [] ->
  any_in stop_words (lower (clean_title_line line)) = true
  \/ author_like (clean_title_line line) = true ->
  collect_title_lines (pre ++ line :: rest) = collect_title_lines pre.
Proof.
  intros Hne Hstop.
  induction pre as [|l pre IH].
  - cbn [app]. rewrite collect_title_lines_cons.
    destruct (clean_title_line line) as [|c t] eqn:E; [congruence|].
    destruct (any_in stop_words (lower (c :: t))); [reflexivity|].
    destruct Hstop as [H|H]; [discriminate|]. now rewrite H.
  - rewrite <- app_comm_cons, !collect_title_lines_cons.
    destruct (clean_title_line l) as [|c t]; [exact IH|].
    destruct (any_in stop_words (lower (c :: t))); [reflexivity|].
    destruct (author_like (c :: t)); [reflexivity|].
    destruct (ends_sentence (c :: t)); [reflexivity|].
    now rewrite IH.
Qed.

Lemma In_firstn {A} (n : nat) (l : list A) (x : A) :
  In x (firstn n l) -> In x l.
Proof.
  intros H. rewrite <- (firstn_skipn n l). apply in_or_app. now left.
Qed.

(** No meaningful line for the fallback when every line has at most 15
    characters. *)
Lemma meaningful_lines_short (lines : list str) :
  (forall l, In l lines -> length l <= 15) -> meaningful_lines lines = [].
Proof.
  intros H. unfold meaningful_lines.
  assert (Hs : forall l, In l (firstn 20 lines) -> length l <= 15).
  { intros l Hl. apply H. eapply In_firstn. exact Hl. }
  clear H. induction (firstn 20 lines) as [|l ls IH]; [reflexivity|].
  cbn [map filter].
  assert (Hl : length l <= 15) by (apply Hs; now left).
  pose proof (clean_title_line_length l) as Hc.
  destruct (15 <? length (clean_title_line l)) eqn:E.
  - apply Nat.ltb_lt in E. lia.
  - cbn [andb]. apply IH. intros l' Hl'. apply Hs. now right.
Qed.

Lemma assembled_title_length (lines : list str) (t : str) :
  assembled_title lines = Some t -> 10 < length t < 300.
Proof.
  unfold assembled_title.
  destruct (title_start_idx lines <? length lines); [|discriminate].
  destruct (collect_title_lines (title_window lines)); [discriminate|].
  match goal with |- context [if ?b then _ else _] => destruct b eqn:E end;
    [|discriminate].
  intros [= <-]. apply andb_true_iff in E. destruct E as [E1 E2].
  apply Nat.ltb_lt in E1. apply Nat.ltb_lt in E2. split; [exact E1 | exact E2].
Qed.

End TitleExtractorFacts.

(** *** The example of the specification *)

(** C4, as the source runs: on the specification's example text the Title
    Extractor returns the title line followed by the author line,
    [Study of Fuzzy Reconciliation Systems John Smith, MIT].  The leading
    article is stripped and the abstract line is left out, but the line
    [John Smith, MIT] is neither in capitals nor has [@] or
    [university], so it is collected as a second fragment. *)
Theorem C4_example_title :
  extract_title_from_text Samples.spec_text
  = Some (py "Study of Fuzzy Reconciliation Systems John Smith, MIT").
Proof. vm_compute. reflexivity. Qed.

(** C4, as stated, fails: the result on the example text is a string other
    than [Study of Fuzzy Reconciliation Systems]. *)
Lemma C4_example_title_counterexample :
  exists t,
    extract_title_from_text Samples.spec_text = Some t
    /\ t <> py "Study of Fuzzy Reconciliation Systems"
    /\ collect_title_lines (title_window (text_lines Samples.spec_text))
       = [py "A Study of Fuzzy Reconciliation Systems"; py "John Smith, MIT"].
Proof.
  eexists. split; [vm_compute; reflexivity|].
  split; [discriminate | vm_compute; reflexivity].
Qed.

(** *** Lines that look like author information *)

(** C5, as the source runs: when a cleaned line shorter than 50 characters
    is all in capitals, has [@] or has [university] in any case, the
    collection stops before it: the fragments are those of the lines in
    front of it, and neither this line nor a later one is added. *)
Theorem C5_author_line_excluded (pre rest : list str) (line : str) :
  length (clean_title_line line) < 50 ->
  isupper (clean_title_line line) = true
  \/ contains (py "@") (clean_title_line line) = true
  \/ contains (py "university") (lower (clean_title_line line)) = true ->
  collect_title_lines (pre ++ line :: rest) = collect_title_lines pre.
Proof.
  intros Hlen Hkind.
  assert (Ha : author_like (clean_title_line line) = true).
  { unfold author_like. apply andb_true_iff. split.
    - now apply Nat.ltb_lt.
    - destruct Hkind as [H|[H|H]]; rewrite H, ?orb_true_r; reflexivity. }
  apply collect_cut; [now apply author_like_nonempty | now right].
Qed.

Lemma C5_author_line_excluded_witness :
  length (clean_title_line (py "JOHN SMITH")) < 50
  /\ collect_title_lines
       ([py "A Study of Fuzzy Reconciliation Systems"]
        ++ py "JOHN SMITH" :: [py "Second line"])
     = collect_title_lines [py "A Study of Fuzzy Reconciliation Systems"].
Proof.
  split; [vm_compute; lia|].
  apply (@C5_author_line_excluded
           [py "A Study of Fuzzy Reconciliation Systems"] [py "Second line"]
           (py "JOHN SMITH")).
  - vm_compute; lia.
  - left. vm_compute. reflexivity.
Defined.

(** C5, as stated, fails: the line [JOHN SMITH] is short and in capitals,
    the collection stops at it, and it is not among the fragments; the
    title has the first line only. *)
Lemma C5_author_line_counterexample :
  author_like (clean_title_line (py "JOHN SMITH")) = true
  /\ collect_title_lines Samples.title_then_author
     = [py "A Study of Fuzzy Reconciliation Systems"]
  /\ extract_title_from_text (join [nl] Samples.title_then_author)
     = Some (py "Study of Fuzzy Reconciliation Systems").
Proof. repeat split; vm_compute; reflexivity. Qed.

(** *** Texts of short lines *)

(** C6, as the source runs: when no line of the text has more than 15
    characters, the longest-line fallback has no candidate, so the
    extractor returns what the main collection path assembles: a title of
    more than 10 and fewer than 300 characters, or nothing. *)
Theorem C6_short_lines (text : str) :
  (forall l, In l (text_lines text) -> length l <= 15) ->
  longest_line_title (text_lines text) = None
  /\ extract_title_from_text text = assembled_title (text_lines text)
  /\ (forall t, extract_title_from_text text = Some t -> 10 < length t < 300).
Proof.
  intros H.
  assert (F : longest_line_title (text_lines text) = None).
  { unfold longest_line_title. now rewrite (meaningful_lines_short _ H). }
  assert (E : extract_title_from_text text = assembled_title (text_lines text)).
  { unfold extract_title_from_text.
    destruct (text_lines text) as [|l ls] eqn:L; [reflexivity|].
    destruct (assembled_title (l :: ls)); [reflexivity | exact F]. }
  split; [exact F|]. split; [exact E|].
  intros t Ht. rewrite E in Ht. now apply assembled_title_length in Ht.
Qed.

Lemma C6_short_lines_witness :
  longest_line_title (text_lines (py "Hello world")) = None
  /\ extract_title_from_text (py "Hello world")
     = assembled_title (text_lines (py "Hello world"))
  /\ (forall t, extract_title_from_text (py "Hello world") = Some t ->
      10 < length t < 300).
Proof.
  apply (@C6_short_lines (py "Hello world")).
  intros l Hl. vm_compute in Hl. destruct Hl as [<-|[]]. vm_compute. lia.
Defined.

(** C6, as stated, fails: the one-line text [Hello world] has 11
    characters and no section label, and the extractor returns the line. *)
Lemma C6_short_lines_counterexample :
  forallb (fun l => (length l <=? 15) && negb (any_in section_words (lower l)))
          (text_lines (py "Hello world")) = true
  /\ extract_title_from_text (py "Hello world") = Some (py "Hello world").
Proof. split; vm_compute; reflexivity. Qed.

(** ** Python's [max], [index] and dictionaries *)

Section PythonFacts.

Lemma str_eqb_eq (a b : str) : str_eqb a b = true <-> a = b.
Proof.
  unfold str_eqb. destruct (list_eq_dec ascii_dec a b); split; congruence.
Qed.

Lemma str_eqb_refl (a : str) : str_eqb a a = true.
Proof. now apply str_eqb_eq. Qed.

Lemma str_eqb_neq (a b : str) : str_eqb a b = false <-> a <> b.
Proof.
  unfold str_eqb. destruct (list_eq_dec ascii_dec a b); split; congruence.
Qed.

Variable A : Type.
Variable key : A -> Z.

Local Abbreviation first_max := (first_max key).

Lemma first_max_ge (b : A) (items : list A) (x : A) :
  first_max b items -> In x items -> (key x <= key b)%Z.
Proof.
  intros (pre & post & -> & Hpre & Hpost) Hx.
  rewrite Forall_forall in Hpre, Hpost.
  apply in_app_or in Hx. destruct Hx as [Hx|[<-|Hx]].
  - apply Hpre in Hx. lia.
  - lia.
  - now apply Hpost.
Qed.

Lemma first_max_In (b : A) (items : list A) : first_max b items -> In b items.
Proof.
  intros (pre & post & -> & _). apply in_or_app. right. now left.
Qed.

Lemma max_from_first_max (items : list A) (best : A) :
  first_max (max_from key best items) (best :: items).
Proof.
  revert best. induction items as [|x rest IH]; intros best.
  - exists [], []. repeat split; constructor.
  - cbn [max_from]. destruct (key best <? key x)%Z eqn:E.
    + apply Z.ltb_lt in E.
      pose proof (IH x) as Hm.
      pose proof (@first_max_ge _ _ x Hm (or_introl eq_refl)) as Hx.
      remember (max_from key x rest) as b eqn:Eb. clear Eb.
      destruct Hm as (pre & post & Heq & Hpre & Hpost).
      exists (best :: pre), post. rewrite Heq. repeat split; auto.
      constructor; [lia | assumption].
    + apply Z.ltb_ge in E.
      pose proof (IH best) as Hm.
      remember (max_from key best rest) as b eqn:Eb. clear Eb.
      destruct Hm as (pre & post & Heq & Hpre & Hpost).
      destruct pre as [|p pre]; cbn [app] in Heq; injection Heq as Hb Hr.
      * subst b rest. exists [], (x :: post). repeat split; auto.
      * subst p rest. exists (best :: x :: pre), post. repeat split; auto.
        inversion Hpre; subst. constructor; [assumption|].
        constructor; [lia | assumption].
Qed.

Lemma py_max_first_max (items : list A) (b : A) :
  py_max key items = Some b -> first_max b items.
Proof.
  destruct items as [|x rest]; [discriminate|].
  intros [= <-]. apply max_from_first_max.
Qed.

Lemma py_max_None (items : list A) : py_max key items = None <-> items = [].
Proof. destruct items; split; intros H; try discriminate; reflexivity. Qed.

Lemma py_max_some (items : list A) :
  items <> [] -> exists b, py_max key items = Some b.
Proof. destruct items as [|x rest]; [congruence|]. intros _. now eexists. Qed.

End PythonFacts.

Section IndexFacts.

(** [l.index(x)] is the first position of [x]. *)
Lemma list_index_first (x : str) (l : list str) :
  In x l ->
  exists i, list_index x l = Some i
            /\ nth_error l i = Some x
            /\ forall j, j < i -> nth_error l j <> Some x.
Proof.
  induction l as [|y rest IH]; [intros []|].
  intros Hin. cbn [list_index].
  destruct (str_eqb x y) eqn:E.
  - apply str_eqb_eq in E. subst y. exists 0.
    repeat split; auto. intros j Hj. lia.
  - apply str_eqb_neq in E.
    destruct Hin as [->|Hin]; [congruence|].
    destruct (IH Hin) as (i & Hi & Hn & Hf).
    exists (S i). rewrite Hi. repeat split; auto.
    intros [|j] Hj; cbn [nth_error]; [congruence|].
    apply Hf. lia.
Qed.

Variable V : Type.

(** A new key of a dictionary goes to the end. *)
Lemma dict_set_fresh (k : nat) (v : V) (d : dict nat V) :
  ~ In k (keys d) -> dict_set Nat.eqb k v d = d ++ [(k, v)].
Proof.
  induction d as [|[k' v'] rest IH]; intros Hk; [reflexivity|].
  cbn [dict_set app]. cbn [keys map fst In] in Hk.
  destruct (Nat.eqb k k') eqn:E.
  - apply Nat.eqb_eq in E. subst. tauto.
  - f_equal. apply IH. intros H. apply Hk. now right.
Qed.

Lemma dict_get_In (k : nat) (v : V) (d : dict nat V) :
  dict_get Nat.eqb k d = Some v -> In (k, v) d.
Proof.
  induction d as [|[k' v'] rest IH]; [discriminate|].
  cbn [dict_get]. destruct (Nat.eqb k k') eqn:E.
  - apply Nat.eqb_eq in E. intros [= ->]. subst. now left.
  - intros H. right. now apply IH.
Qed.

Lemma dict_get_None (k : nat) (d : dict nat V) :
  dict_get Nat.eqb k d = None <-> ~ In k (keys d).
Proof.
  induction d as [|[k' v'] rest IH]; [cbn; tauto|].
  cbn [dict_get keys map fst In]. destruct (Nat.eqb k k') eqn:E.
  - apply Nat.eqb_eq in E. subst. split; [discriminate | tauto].
  - apply Nat.eqb_neq in E. unfold keys in IH. rewrite IH.
    split; [intros H [H'|H']; [congruence | tauto] | tauto].
Qed.

End IndexFacts.

(** ** The Fuzzy Matcher *)

Section MatcherFacts.

Variables token_sort_ratio partial_ratio token_set_ratio : str -> str -> Z.
Variable pdf_titles : dict str str.

Local Abbreviation found := (found pdf_titles).
Local Abbreviation matches_found :=
  (matches_found token_sort_ratio partial_ratio token_set_ratio pdf_titles).
Local Abbreviation best_match :=
  (best_match token_sort_ratio partial_ratio token_set_ratio pdf_titles).
Local Abbreviation filename_of := (filename_of pdf_titles).
Local Abbreviation record_match :=
  (record_match token_sort_ratio partial_ratio token_set_ratio pdf_titles).
Local Abbreviation match_loop :=
  (match_loop token_sort_ratio partial_ratio token_set_ratio pdf_titles).
Local Abbreviation matched_from :=
  (matched_from token_sort_ratio partial_ratio token_set_ratio pdf_titles).
Local Abbreviation unmatched_from :=
  (unmatched_from token_sort_ratio partial_ratio token_set_ratio pdf_titles).
Local Abbreviation match_titles_fuzzy :=
  (match_titles_fuzzy token_sort_ratio partial_ratio token_set_ratio pdf_titles).

(** *** One strategy *)

Lemma extractOne_choice (scorer : str -> str -> Z) (query : str)
    (choices : list str) (choice : str) (score : Z) :
  extractOne scorer query choices = Some (choice, score) ->
  In choice choices /\ score = scorer query choice.
Proof.
  unfold extractOne. intros H.
  apply py_max_first_max, first_max_In, filter_In in H.
  destruct H as [H _]. apply in_map_iff in H.
  destruct H as (c & [= <- <-] & Hc). auto.
Qed.

Lemma found_title (m : method) (scorer : str -> str -> Z) (excel_title : str)
    (x : method * str * Z) :
  In x (found m scorer excel_title) ->
  fst (fst x) = m /\ In (snd (fst x)) (pdf_title_list pdf_titles).
Proof.
  unfold Matcher.found.
  destruct (extractOne scorer excel_title (pdf_title_list pdf_titles))
    as [[c v]|] eqn:E; [|intros []].
  intros [<-|[]]. cbn. split; [reflexivity|].
  now apply extractOne_choice in E.
Qed.

Lemma matches_found_title (excel_title : str) (x : method * str * Z) :
  In x (matches_found excel_title) -> In (snd (fst x)) (pdf_title_list pdf_titles).
Proof.
  unfold Matcher.matches_found. intros H.
  apply in_app_or in H. destruct H as [H|H]; [now apply found_title in H|].
  apply in_app_or in H. destruct H as [H|H]; now apply found_title in H.
Qed.

Lemma best_match_title (excel_title : str) (m : method) (t : str) (c : Z) :
  best_match excel_title = Some (m, t, c) -> In t (pdf_title_list pdf_titles).
Proof.
  intros H. apply py_max_first_max, first_max_In in H.
  now apply matches_found_title in H.
Qed.

(** *** The file of a matched title *)

Lemma keys_values_nth (d : dict str str) (i : nat) (t : str) :
  nth_error (values d) i = Some t ->
  exists name, nth_error d i = Some (name, t) /\ nth_error (keys d) i = Some name.
Proof.
  unfold values, keys. rewrite !nth_error_map.
  destruct (nth_error d i) as [[name t']|]; [|discriminate].
  cbn. intros [= ->]. now exists name.
Qed.

(** The title of a best match is in the index, so the look-up of its file
    raises nothing, and the file is that of the first document with this
    title. *)
Lemma filename_of_first (t : str) :
  In t (pdf_title_list pdf_titles) ->
  exists name i,
    filename_of t = Some name
    /\ nth_error pdf_titles i = Some (name, t)
    /\ forall j other, j < i -> nth_error pdf_titles j <> Some (other, t).
Proof.
  intros Hin. destruct (list_index_first _ _ Hin) as (i & Hi & Hn & Hf).
  destruct (keys_values_nth _ _ Hn) as (name & Hd & Hk).
  exists name, i. unfold Matcher.filename_of, pdf_title_list, pdf_filename_list.
  unfold pdf_title_list in Hi. rewrite Hi. repeat split; auto.
  intros j other Hj Hc. apply (Hf j Hj).
  unfold pdf_title_list, values. rewrite nth_error_map, Hc. reflexivity.
Qed.

(** *** The decision for one article *)

Lemma record_match_matched (threshold : Z) (excel_title : str)
    (m : method) (t : str) (c : Z) :
  best_match excel_title = Some (m, t, c) -> (threshold <= c)%Z ->
  exists name,
    filename_of t = Some name
    /\ record_match threshold excel_title = Some (MatchInfo name t c m).
Proof.
  intros Hb Hc. unfold Matcher.record_match. rewrite Hb.
  apply Z.leb_le in Hc. rewrite Hc.
  destruct (filename_of_first t (best_match_title _ Hb)) as (name & i & Hf & _).
  exists name. now rewrite Hf.
Qed.

Lemma record_match_below (threshold : Z) (excel_title : str)
    (m : method) (t : str) (c : Z) :
  best_match excel_title = Some (m, t, c) -> (c < threshold)%Z ->
  record_match threshold excel_title = None.
Proof.
  intros Hb Hc. unfold Matcher.record_match. rewrite Hb.
  apply Z.leb_gt in Hc. now rewrite Hc.
Qed.

Lemma record_match_inv (threshold : Z) (excel_title : str) (info : match_info) :
  record_match threshold excel_title = Some info ->
  best_match excel_title
  = Some (method_used info, pdf_title info, confidence info)
  /\ (threshold <= confidence info)%Z
  /\ filename_of (pdf_title info) = Some (filename info).
Proof.
  unfold Matcher.record_match.
  destruct (best_match excel_title) as [[[m t] c]|]; [|discriminate].
  destruct (threshold <=? c)%Z eqn:E; [|discriminate].
  destruct (filename_of t) as [name|] eqn:F; [|discriminate].
  intros [= <-]. cbn. apply Z.leb_le in E. auto.
Qed.

(** *** The loop *)

(** The loop raises nothing; it appends its matches and its unmatched
    articles in the order of the catalog. *)
Lemma match_loop_eq (threshold : Z) (excel_titles : list (option str)) :
  forall (idx : nat) (matches : dict nat match_info)
         (unmatched_articles : list (nat * str)),
    (forall k, In k (keys matches) -> k < idx) ->
    match_loop threshold idx excel_titles matches unmatched_articles
    = Some (matches ++ matched_from threshold idx excel_titles,
            unmatched_articles ++ unmatched_from threshold idx excel_titles).
Proof.
  induction excel_titles as [|[e|] rest IH]; intros idx matches ua Hk.
  - cbn. now rewrite !app_nil_r.
  - cbn [Matcher.match_loop Matcher.matched_from Matcher.unmatched_from].
    destruct (best_match e) as [[[m t] c]|] eqn:Hb.
    + destruct (threshold <=? c)%Z eqn:Hc.
      * apply Z.leb_le in Hc.
        destruct (record_match_matched _ Hb Hc) as (name & Hf & Hr).
        rewrite Hf, Hr. rewrite dict_set_fresh.
        -- rewrite IH.
           ++ now rewrite <- app_assoc.
           ++ intros k Hin. unfold keys in Hin. rewrite map_app in Hin.
              apply in_app_or in Hin. destruct Hin as [Hin|Hin].
              ** apply Hk in Hin. lia.
              ** cbn in Hin. destruct Hin as [<-|[]]. lia.
        -- intros Hin. apply Hk in Hin. lia.
      * apply Z.leb_gt in Hc. rewrite (record_match_below _ Hb Hc).
        rewrite IH; [now rewrite <- app_assoc|].
        intros k Hin. apply Hk in Hin. lia.
    + assert (Hr : record_match threshold e = None).
      { unfold Matcher.record_match. now rewrite Hb. }
      rewrite Hr. rewrite IH; [now rewrite <- app_assoc|].
      intros k Hin. apply Hk in Hin. lia.
  - cbn [Matcher.match_loop Matcher.matched_from Matcher.unmatched_from].
    apply IH. intros k Hin. apply Hk in Hin. lia.
Qed.

(** [match_titles_fuzzy] always returns, and what it returns. *)
Lemma match_titles_fuzzy_eq (threshold : Z) (excel_titles : list (option str)) :
  match_titles_fuzzy threshold excel_titles
  = Some (matched_from threshold 0 excel_titles,
          unmatched_from threshold 0 excel_titles,
          filter (not_matched (matched_from threshold 0 excel_titles))
                 (keys pdf_titles)).
Proof.
  unfold Matcher.match_titles_fuzzy.
  rewrite match_loop_eq; [reflexivity | intros k []].
Qed.

(** *** The entries of the result, by position in the catalog *)

Lemma In_matched_from (threshold : Z) (excel_titles : list (option str)) :
  forall (idx i : nat) (info : match_info),
    In (i, info) (matched_from threshold idx excel_titles) <->
    exists j e, i = idx + j /\ nth_error excel_titles j = Some (Some e)
                /\ record_match threshold e = Some info.
Proof.
  induction excel_titles as [|[e|] rest IH]; intros idx i info.
  - cbn. split; [intros [] | intros (j & e & _ & H & _)].
    destruct j; discriminate.
  - cbn [Matcher.matched_from].
    assert (Hrest : In (i, info) (matched_from threshold (S idx) rest) <->
                    exists j e', i = idx + S j
                                 /\ nth_error (Some e :: rest) (S j) = Some (Some e')
                                 /\ record_match threshold e' = Some info).
    { rewrite IH. split; intros (j & e' & Hi & Hn & Hr); exists j, e';
        repeat split; auto; lia. }
    destruct (record_match threshold e) as [info0|] eqn:Hr.
    + cbn [In]. rewrite Hrest. split.
      * intros [[= <- <-]|(j & e' & Hi & Hn & Hr')].
        -- exists 0, e. repeat split; auto.
        -- exists (S j), e'. auto.
      * intros (j & e' & Hi & Hn & Hr'). destruct j as [|j].
        -- left. cbn in Hn. injection Hn as <-. rewrite Hr in Hr'.
           injection Hr' as <-. f_equal. lia.
        -- right. exists j, e'. auto.
    + rewrite Hrest. split.
      * intros (j & e' & Hi & Hn & Hr'). exists (S j), e'. auto.
      * intros (j & e' & Hi & Hn & Hr'). destruct j as [|j].
        -- cbn in Hn. injection Hn as <-. congruence.
        -- exists j, e'. auto.
  - cbn [Matcher.matched_from]. rewrite IH. split.
    + intros (j & e' & Hi & Hn & Hr'). exists (S j), e'.
      repeat split; auto; lia.
    + intros (j & e' & Hi & Hn & Hr'). destruct j as [|j]; [discriminate|].
      exists j, e'. repeat split; auto; lia.
Qed.

Lemma In_unmatched_from (threshold : Z) (excel_titles : list (option str)) :
  forall (idx i : nat) (e : str),
    In (i, e) (unmatched_from threshold idx excel_titles) <->
    exists j, i = idx + j /\ nth_error excel_titles j = Some (Some e)
              /\ record_match threshold e = None.
Proof.
  induction excel_titles as [|[e0|] rest IH]; intros idx i e.
  - cbn. split; [intros [] | intros (j & _ & H & _)].
    destruct j; discriminate.
  - cbn [Matcher.unmatched_from].
    assert (Hrest : In (i, e) (unmatched_from threshold (S idx) rest) <->
                    exists j, i = idx + S j
                              /\ nth_error (Some e0 :: rest) (S j) = Some (Some e)
                              /\ record_match threshold e = None).
    { rewrite IH. split; intros (j & Hi & Hn & Hr); exists j;
        repeat split; auto; lia. }
    destruct (record_match threshold e0) as [info0|] eqn:Hr.
    + rewrite Hrest. split.
      * intros (j & Hi & Hn & Hr'). exists (S j). auto.
      * intros (j & Hi & Hn & Hr'). destruct j as [|j].
        -- cbn in Hn. injection Hn as <-. congruence.
        -- exists j. auto.
    + cbn [In]. rewrite Hrest. split.
      * intros [[= <- <-]|(j & Hi & Hn & Hr')].
        -- exists 0. repeat split; auto.
        -- exists (S j). auto.
      * intros (j & Hi & Hn & Hr'). destruct j as [|j].
        -- left. cbn in Hn. injection Hn as <-. f_equal. lia.
        -- right. exists j. auto.
  - cbn [Matcher.unmatched_from]. rewrite IH. split.
    + intros (j & Hi & Hn & Hr'). exists (S j). repeat split; auto; lia.
    + intros (j & Hi & Hn & Hr'). destruct j as [|j]; [discriminate|].
      exists j. repeat split; auto; lia.
Qed.

Lemma matched_from_keys_ge (threshold : Z) (excel_titles : list (option str))
    (idx k : nat) :
  In k (keys (matched_from threshold idx excel_titles)) -> idx <= k.
Proof.
  unfold keys. intros H. apply in_map_iff in H.
  destruct H as ([k' info] & Hk & Hin). cbn in Hk. subst k'.
  apply In_matched_from in Hin. destruct Hin as (j & e & -> & _). lia.
Qed.

(** The entry of [matches] at a position of the catalog is the decision
    for the title at that position. *)
Lemma dict_get_matched_from (threshold : Z) (excel_titles : list (option str)) :
  forall idx j,
    dict_get Nat.eqb (idx + j) (matched_from threshold idx excel_titles)
    = match nth_error excel_titles j with
      | Some (Some e) => record_match threshold e
      | _ => None
      end.
Proof.
  induction excel_titles as [|[e|] rest IH]; intros idx j.
  - destruct j; reflexivity.
  - cbn [Matcher.matched_from]. destruct j as [|j]; cbn [nth_error].
    + destruct (record_match threshold e) as [info|] eqn:Hr.
      * cbn [dict_get]. rewrite Nat.add_0_r, Nat.eqb_refl. reflexivity.
      * apply dict_get_None. intros Hin.
        apply matched_from_keys_ge in Hin. lia.
    + rewrite <- (IH (S idx) j).
      replace (idx + S j) with (S idx + j) by lia.
      destruct (record_match threshold e) as [info|]; [|reflexivity].
      cbn [dict_get]. replace (Nat.eqb (S idx + j) idx) with false; [reflexivity|].
      symmetry. apply Nat.eqb_neq. lia.
  - cbn [Matcher.matched_from]. destruct j as [|j]; cbn [nth_error].
    + apply dict_get_None. intros Hin.
      apply matched_from_keys_ge in Hin. lia.
    + rewrite <- (IH (S idx) j). f_equal. lia.
Qed.

Lemma claimed_existsb (matches : dict nat match_info) (name : str) :
  existsb (str_eqb name) (map filename (values matches)) = true
  <-> claimed matches name.
Proof.
  rewrite existsb_exists. unfold claimed, values. split.
  - intros (x & Hin & Hx). apply str_eqb_eq in Hx. subst x.
    apply in_map_iff in Hin. destruct Hin as (info & Hf & Hin).
    apply in_map_iff in Hin. destruct Hin as ([idx info'] & Hi & Hin).
    cbn in Hi. subst info'. now exists idx, info.
  - intros (idx & info & Hin & Hf). exists name. split; [|apply str_eqb_refl].
    apply in_map_iff. exists info. split; [assumption|].
    apply in_map_iff. now exists (idx, info).
Qed.

(** Every file of the index is either bound by a match or listed as
    unmatched, never both. *)
Lemma files_partition (matches : dict nat match_info) (name : str) :
  In name (keys pdf_titles) ->
  (claimed matches name
   \/ In name (filter (not_matched matches) (keys pdf_titles)))
  /\ ~ (claimed matches name
        /\ In name (filter (not_matched matches) (keys pdf_titles))).
Proof.
  intros Hin. rewrite filter_In. unfold not_matched.
  destruct (existsb (str_eqb name) (map filename (values matches))) eqn:E.
  - apply claimed_existsb in E. split; [now left|].
    intros (_ & _ & H). discriminate.
  - split; [right; auto|]. intros (Hc & _).
    apply claimed_existsb in Hc. congruence.
Qed.

(** *** Documents: claimed or unmatched *)

(** C1, as the source runs: the matcher keeps no track of the documents
    already bound, so the entry of every article is the decision for its
    own title, whatever the earlier articles were bound to, and one
    document may be bound by several matches.  Every document of the
    index is bound by at least one match or is in the list of unmatched
    documents, never both. *)
Theorem C1_documents_partition (threshold : Z) (excel_titles : list (option str)) :
  exists matches unmatched_articles unmatched_pdfs,
    match_titles_fuzzy threshold excel_titles
    = Some (matches, unmatched_articles, unmatched_pdfs)
    /\ (forall name, In name (keys pdf_titles) ->
        (claimed matches name \/ In name unmatched_pdfs)
        /\ ~ (claimed matches name /\ In name unmatched_pdfs))
    /\ (forall idx excel_title,
        nth_error excel_titles idx = Some (Some excel_title) ->
        dict_get Nat.eqb idx matches = record_match threshold excel_title).
Proof.
  do 3 eexists. split; [apply match_titles_fuzzy_eq|]. split.
  - intros name Hin. now apply files_partition.
  - intros idx e Hn.
    pose proof (dict_get_matched_from threshold excel_titles 0 idx) as H.
    cbn [Nat.add] in H. now rewrite H, Hn.
Qed.

(** *** Articles: matched or unmatched *)

(** C2, as the source runs: an article with a title is in exactly one of
    [matches] and the list of unmatched articles; an article whose title
    is missing is skipped and is in neither of them. *)
Theorem C2_articles_partition (threshold : Z) (excel_titles : list (option str)) :
  exists matches unmatched_articles unmatched_pdfs,
    match_titles_fuzzy threshold excel_titles
    = Some (matches, unmatched_articles, unmatched_pdfs)
    /\ forall idx,
        match nth_error excel_titles idx with
        | Some (Some _) =>
            (In idx (keys matches) \/ In idx (map fst unmatched_articles))
            /\ ~ (In idx (keys matches) /\ In idx (map fst unmatched_articles))
        | _ =>
            ~ In idx (keys matches) /\ ~ In idx (map fst unmatched_articles)
        end.
Proof.
  do 3 eexists. split; [apply match_titles_fuzzy_eq|].
  intros idx.
  assert (Hm : forall info, In (idx, info) (matched_from threshold 0 excel_titles)
               <-> exists e, nth_error excel_titles idx = Some (Some e)
                             /\ record_match threshold e = Some info).
  { intros info. rewrite In_matched_from. split.
    - intros (j & e & -> & H). now exists e.
    - intros (e & H). now exists idx, e. }
  assert (Hu : forall e, In (idx, e) (unmatched_from threshold 0 excel_titles)
               <-> nth_error excel_titles idx = Some (Some e)
                   /\ record_match threshold e = None).
  { intros e. rewrite In_unmatched_from. split.
    - intros (j & -> & H). exact H.
    - intros H. now exists idx. }
  assert (Km : In idx (keys (matched_from threshold 0 excel_titles))
               <-> exists info, In (idx, info) (matched_from threshold 0 excel_titles)).
  { unfold keys. rewrite in_map_iff. split.
    - intros ([k info] & Hk & Hin). cbn in Hk. subst k. now exists info.
    - intros (info & Hin). now exists (idx, info). }
  assert (Ku : In idx (map fst (unmatched_from threshold 0 excel_titles))
               <-> exists e, In (idx, e) (unmatched_from threshold 0 excel_titles)).
  { rewrite in_map_iff. split.
    - intros ([k e] & Hk & Hin). cbn in Hk. subst k. now exists e.
    - intros (e & Hin). now exists (idx, e). }
  destruct (nth_error excel_titles idx) as [[e|]|] eqn:Hn; rewrite Km, Ku.
  - split.
    + destruct (record_match threshold e) as [info|] eqn:Hr.
      * left. exists info. apply Hm. now exists e.
      * right. exists e. now apply Hu.
    + intros ((info & Hi) & (e' & He)).
      apply Hm in Hi. apply Hu in He.
      destruct Hi as (e1 & [= <-] & H1). destruct He as ([= <-] & H2).
      congruence.
  - split.
    + intros (info & Hi). apply Hm in Hi. destruct Hi as (e & H & _). discriminate.
    + intros (e & He). apply Hu in He. destruct He as (H & _). discriminate.
  - split.
    + intros (info & Hi). apply Hm in Hi. destruct Hi as (e & H & _). discriminate.
    + intros (e & He). apply Hu in He. destruct He as (H & _). discriminate.
Qed.

(** *** Identical titles *)

(** The best score of one strategy is 100 when the index has the very
    title of the article. *)
Lemma extractOne_identical (scorer : str -> str -> Z) (t : str) :
  similarity scorer -> In t (pdf_title_list pdf_titles) ->
  exists t', extractOne scorer t (pdf_title_list pdf_titles) = Some (t', 100%Z).
Proof.
  intros [Hle Hrefl] Hin. unfold extractOne.
  set (scored := filter _ _).
  assert (Ht : In (t, 100%Z) scored).
  { apply filter_In. split; [|reflexivity].
    apply in_map_iff. exists t. now rewrite Hrefl. }
  destruct (@py_max_some _ (@snd str Z) scored) as ([t' v] & Hb).
  { intros E. now rewrite E in Ht. }
  rewrite Hb. exists t'. do 2 f_equal.
  apply py_max_first_max in Hb.
  pose proof (@first_max_ge _ _ _ _ _ Hb Ht) as Hge. cbn in Hge.
  apply first_max_In, filter_In in Hb. destruct Hb as [Hb _].
  apply in_map_iff in Hb. destruct Hb as (c & [= _ <-] & _).
  specialize (Hle t c). lia.
Qed.

(** C3: when the three similarity functions score identical titles 100
    and nothing above 100, an article whose title is, byte for byte, the
    title of a document of the index has a best score of 100 under each
    of the three strategies, its overall best candidate has confidence
    100, and, for a threshold of at most 100, the match recorded for the
    article has confidence 100. *)
Theorem C3_identical_titles (threshold : Z) (excel_titles : list (option str))
    (idx : nat) (title name : str) :
  similarity token_sort_ratio -> similarity partial_ratio ->
  similarity token_set_ratio ->
  nth_error excel_titles idx = Some (Some title) ->
  In (name, title) pdf_titles ->
  (exists t1 t2 t3,
      extractOne token_sort_ratio title (pdf_title_list pdf_titles) = Some (t1, 100%Z)
      /\ extractOne partial_ratio title (pdf_title_list pdf_titles) = Some (t2, 100%Z)
      /\ extractOne token_set_ratio title (pdf_title_list pdf_titles) = Some (t3, 100%Z))
  /\ (exists m t, best_match title = Some (m, t, 100%Z))
  /\ ((threshold <= 100)%Z ->
      exists matches unmatched_articles unmatched_pdfs info,
        match_titles_fuzzy threshold excel_titles
        = Some (matches, unmatched_articles, unmatched_pdfs)
        /\ dict_get Nat.eqb idx matches = Some info
        /\ confidence info = 100%Z).
Proof.
  intros Hs Hp Ht Hn Hin.
  assert (Hv : In title (pdf_title_list pdf_titles)).
  { unfold pdf_title_list, values. apply in_map_iff. now exists (name, title). }
  destruct (@extractOne_identical _ _ Hs Hv) as (t1 & E1).
  destruct (@extractOne_identical _ _ Hp Hv) as (t2 & E2).
  destruct (@extractOne_identical _ _ Ht Hv) as (t3 & E3).
  assert (Hb : best_match title = Some (token_sort, t1, 100%Z)).
  { unfold Matcher.best_match, Matcher.matches_found, Matcher.found.
    rewrite E1, E2, E3. reflexivity. }
  split; [now exists t1, t2, t3|]. split; [now exists token_sort, t1|].
  intros Hthr.
  destruct (record_match_matched _ Hb Hthr) as (file & _ & Hr).
  do 4 eexists. split; [apply match_titles_fuzzy_eq|].
  pose proof (dict_get_matched_from threshold excel_titles 0 idx) as H.
  cbn [Nat.add] in H. rewrite H, Hn, Hr. split; reflexivity.
Qed.

(** *** The best of the three strategies *)

(** The best of one strategy is a title of the index with its score; no
    title of the index scores higher under this strategy. *)
Lemma extractOne_Some_best (scorer : str -> str -> Z) (query : str)
    (choices : list str) (t : str) (v : Z) :
  extractOne scorer query choices = Some (t, v) ->
  In t choices /\ v = scorer query t
  /\ forall t', In t' choices -> (0 <= scorer query t')%Z ->
                (scorer query t' <= v)%Z.
Proof.
  intros H. destruct (extractOne_choice _ _ _ H) as [Hin Hv].
  split; [exact Hin|]. split; [exact Hv|].
  intros t' Hin' Hpos. unfold extractOne in H.
  apply py_max_first_max in H.
  assert (Hs : In (t', scorer query t')
                 (filter (fun m : str * Z => (0 <=? snd m)%Z)
                    (map (fun choice => (choice, scorer query choice)) choices))).
  { apply filter_In. split; [|now apply Z.leb_le].
    apply in_map_iff. now exists t'. }
  exact (@first_max_ge _ _ _ _ _ H Hs).
Qed.

(** A strategy has no candidate only when no title of the index reaches
    the cut-off of 0. *)
Lemma extractOne_None_neg (scorer : str -> str -> Z) (query : str)
    (choices : list str) :
  extractOne scorer query choices = None ->
  forall t', In t' choices -> (scorer query t' < 0)%Z.
Proof.
  unfold extractOne. intros H t' Hin. apply py_max_None in H.
  destruct (Z.lt_ge_cases (scorer query t') 0) as [Hlt|Hge]; [exact Hlt|].
  assert (Hs : In (t', scorer query t')
                 (filter (fun m : str * Z => (0 <=? snd m)%Z)
                    (map (fun choice => (choice, scorer query choice)) choices))).
  { apply filter_In. split; [|now apply Z.leb_le].
    apply in_map_iff. now exists t'. }
  rewrite H in Hs. destruct Hs.
Qed.

Local Ltac strategy_facts :=
  repeat match goal with
    | E : extractOne _ _ _ = Some _ |- _ =>
        apply extractOne_Some_best in E; destruct E as (? & ? & ?)
    | E : extractOne ?s ?q ?l = None |- _ =>
        pose proof (@extractOne_None_neg s q l E); clear E
    end.

(** The selected candidate is the best of its own strategy. *)
Lemma best_match_strategy (excel_title : str) (m : method) (t : str) (c : Z) :
  best_match excel_title = Some (m, t, c) ->
  extractOne (scorer_of token_sort_ratio partial_ratio token_set_ratio m)
    excel_title (pdf_title_list pdf_titles) = Some (t, c).
Proof.
  unfold Matcher.best_match, Matcher.matches_found, Matcher.found.
  destruct (extractOne token_sort_ratio excel_title (pdf_title_list pdf_titles))
    as [[t1 v1]|] eqn:E1;
  destruct (extractOne partial_ratio excel_title (pdf_title_list pdf_titles))
    as [[t2 v2]|] eqn:E2;
  destruct (extractOne token_set_ratio excel_title (pdf_title_list pdf_titles))
    as [[t3 v3]|] eqn:E3;
  cbn [app py_max max_from fst snd];
  repeat (match goal with
          | |- context [(?a <? ?b)%Z] =>
              is_var a; is_var b; destruct (a <? b)%Z
          end; cbn [fst snd]);
  intros [= <- <- <-]; cbn [scorer_of]; assumption.
Qed.

(** No strategy has a higher score on any title of the index, and the
    strategies tried before the selected one have a lower score on every
    title. *)
Lemma best_match_maximal (excel_title : str) (m : method) (t : str) (c : Z)
    (m' : method) (t' : str) :
  best_match excel_title = Some (m, t, c) ->
  In t' (pdf_title_list pdf_titles) ->
  (0 <= scorer_of token_sort_ratio partial_ratio token_set_ratio m'
          excel_title t')%Z ->
  (scorer_of token_sort_ratio partial_ratio token_set_ratio m' excel_title t'
   <= c)%Z
  /\ (method_rank m' < method_rank m ->
      (scorer_of token_sort_ratio partial_ratio token_set_ratio m'
         excel_title t' < c)%Z).
Proof.
  unfold Matcher.best_match, Matcher.matches_found, Matcher.found.
  destruct (extractOne token_sort_ratio excel_title (pdf_title_list pdf_titles))
    as [[t1 v1]|] eqn:E1;
  destruct (extractOne partial_ratio excel_title (pdf_title_list pdf_titles))
    as [[t2 v2]|] eqn:E2;
  destruct (extractOne token_set_ratio excel_title (pdf_title_list pdf_titles))
    as [[t3 v3]|] eqn:E3;
  cbn [app py_max max_from fst snd];
  repeat (match goal with
          | |- context [(?a <? ?b)%Z] =>
              is_var a; is_var b; destruct (Z.ltb_spec a b)
          end; cbn [fst snd]);
  intros [= <- <- <-] Hin Hpos; strategy_facts;
  repeat match goal with
    | H : forall t0, In t0 _ -> _ |- _ => specialize (H t' Hin)
    end;
  destruct m'; cbn [scorer_of method_rank] in *; lia.
Qed.

Lemma best_match_none (excel_title : str) (m' : method) (t' : str) :
  best_match excel_title = None ->
  In t' (pdf_title_list pdf_titles) ->
  (scorer_of token_sort_ratio partial_ratio token_set_ratio m' excel_title t'
   < 0)%Z.
Proof.
  unfold Matcher.best_match, Matcher.matches_found, Matcher.found.
  destruct (extractOne token_sort_ratio excel_title (pdf_title_list pdf_titles))
    as [[t1 v1]|] eqn:E1;
  destruct (extractOne partial_ratio excel_title (pdf_title_list pdf_titles))
    as [[t2 v2]|] eqn:E2;
  destruct (extractOne token_set_ratio excel_title (pdf_title_list pdf_titles))
    as [[t3 v3]|] eqn:E3;
  cbn [app py_max]; try discriminate.
  intros _ Hin. strategy_facts.
  destruct m'; cbn [scorer_of]; auto.
Qed.

(** C7: the candidate the matcher selects for an article is the best
    candidate of one of the three strategies: a title of the index with
    the score its strategy gives it for the article.  Its score is the
    largest of the three bests, so no strategy scores any title of the
    index higher, and on a tie the first strategy in the order
    token-sort, partial, token-set wins: every strategy before the
    selected one scores every title lower.  It is also the first of the
    candidates with the largest score.  The method, the title and the
    confidence of every recorded match are those of this candidate. *)
Theorem C7_best_strategy (threshold : Z) (excel_titles : list (option str)) :
  (forall excel_title,
      match best_match excel_title with
      | Some (m, t, c) =>
          first_max (fun x => snd x) (m, t, c) (matches_found excel_title)
          /\ extractOne
               (scorer_of token_sort_ratio partial_ratio token_set_ratio m)
               excel_title (pdf_title_list pdf_titles) = Some (t, c)
          /\ In t (pdf_title_list pdf_titles)
          /\ c = scorer_of token_sort_ratio partial_ratio token_set_ratio m
                   excel_title t
          /\ forall m' t',
              In t' (pdf_title_list pdf_titles) ->
              (0 <= scorer_of token_sort_ratio partial_ratio token_set_ratio
                      m' excel_title t')%Z ->
              (scorer_of token_sort_ratio partial_ratio token_set_ratio m'
                 excel_title t' <= c)%Z
              /\ (method_rank m' < method_rank m ->
                  (scorer_of token_sort_ratio partial_ratio token_set_ratio m'
                     excel_title t' < c)%Z)
      | None =>
          matches_found excel_title = []
          /\ forall m' t',
              In t' (pdf_title_list pdf_titles) ->
              (scorer_of token_sort_ratio partial_ratio token_set_ratio m'
                 excel_title t' < 0)%Z
      end)
  /\ exists matches unmatched_articles unmatched_pdfs,
      match_titles_fuzzy threshold excel_titles
      = Some (matches, unmatched_articles, unmatched_pdfs)
      /\ forall idx info,
          In (idx, info) matches ->
          exists excel_title,
            nth_error excel_titles idx = Some (Some excel_title)
            /\ best_match excel_title
               = Some (method_used info, pdf_title info, confidence info).
Proof.
  split.
  - intros e. destruct (best_match e) as [[[m t] c]|] eqn:Hb.
    + pose proof (best_match_strategy _ Hb) as Hs.
      destruct (extractOne_Some_best _ _ _ Hs) as (Hin & Hc & _).
      split; [now apply py_max_first_max|].
      split; [exact Hs|]. split; [exact Hin|]. split; [exact Hc|].
      intros m' t' Hin' Hpos. exact (@best_match_maximal _ _ _ _ m' t' Hb Hin' Hpos).
    + split; [now apply py_max_None in Hb|].
      intros m' t' Hin. now apply best_match_none.
  - do 3 eexists. split; [apply match_titles_fuzzy_eq|].
    intros idx info Hin. apply In_matched_from in Hin.
    destruct Hin as (j & e & -> & Hn & Hr). exists e. split; [exact Hn|].
    apply record_match_inv in Hr. now destruct Hr as (Hb & _).
Qed.

(** *** Raising the threshold *)

Lemma record_match_raise (t1 t2 : Z) (excel_title : str) (info : match_info) :
  (t1 <= t2)%Z ->
  record_match t2 excel_title = Some info
  <-> record_match t1 excel_title = Some info /\ (t2 <= confidence info)%Z.
Proof.
  intros Hle. unfold Matcher.record_match.
  destruct (best_match excel_title) as [[[m t] c]|];
    [|split; [discriminate | intros [H _]; discriminate]].
  destruct (t1 <=? c)%Z eqn:E1; destruct (t2 <=? c)%Z eqn:E2;
    try apply Z.leb_le in E1; try apply Z.leb_le in E2;
    try apply Z.leb_gt in E1; try apply Z.leb_gt in E2; try lia.
  - destruct (filename_of t) as [file|];
      [|split; [discriminate | intros [H _]; discriminate]].
    split.
    + intros [= <-]. cbn. auto.
    + intros [H _]. exact H.
  - split; [discriminate|].
    destruct (filename_of t) as [file|]; [|intros [H _]; discriminate].
    intros [[= <-] H]. cbn in H. lia.
  - split; [discriminate | intros [H _]; discriminate].
Qed.

(** C8, as the source runs: when the threshold is raised from [t1] to
    [t2], the matches of the second run are the matches of the first run
    with a confidence of at least [t2], each with the same document and
    the same confidence.  An article whose best score lies from [t1] up
    to, but not including, [t2] is matched in the first run and unmatched
    in the second; this holds of every such article, not of one alone. *)
Theorem C8_raise_threshold (t1 t2 : Z) (excel_titles : list (option str)) :
  (t1 <= t2)%Z ->
  exists matches1 unmatched1 pdfs1 matches2 unmatched2 pdfs2,
    match_titles_fuzzy t1 excel_titles = Some (matches1, unmatched1, pdfs1)
    /\ match_titles_fuzzy t2 excel_titles = Some (matches2, unmatched2, pdfs2)
    /\ (forall idx info,
        dict_get Nat.eqb idx matches2 = Some info
        <-> dict_get Nat.eqb idx matches1 = Some info
            /\ (t2 <= confidence info)%Z)
    /\ (forall idx excel_title m t c,
        nth_error excel_titles idx = Some (Some excel_title) ->
        best_match excel_title = Some (m, t, c) ->
        (t1 <= c < t2)%Z ->
        (exists info, dict_get Nat.eqb idx matches1 = Some info
                      /\ confidence info = c)
        /\ dict_get Nat.eqb idx matches2 = None
        /\ In (idx, excel_title) unmatched2).
Proof.
  intros Hle. do 6 eexists.
  split; [apply match_titles_fuzzy_eq|].
  split; [apply match_titles_fuzzy_eq|].
  assert (G : forall thr idx,
             dict_get Nat.eqb idx (matched_from thr 0 excel_titles)
             = match nth_error excel_titles idx with
               | Some (Some e) => record_match thr e
               | _ => None
               end).
  { intros thr idx. exact (dict_get_matched_from thr excel_titles 0 idx). }
  split.
  - intros idx info. rewrite !G.
    destruct (nth_error excel_titles idx) as [[e|]|].
    + now apply record_match_raise.
    + split; [discriminate | intros [H _]; discriminate].
    + split; [discriminate | intros [H _]; discriminate].
  - intros idx e m t c Hn Hb [Hc1 Hc2]. rewrite !G, Hn.
    destruct (record_match_matched _ Hb Hc1) as (file & _ & Hr1).
    pose proof (record_match_below _ Hb Hc2) as Hr2.
    rewrite Hr1, Hr2. split; [eexists; split; reflexivity|].
    split; [reflexivity|].
    apply In_unmatched_from. now exists idx.
Qed.

(** *** Documents with the same title *)

(** C10: every match is bound to the first document of the index that
    has the matched title.  So when two documents have the same title,
    the later one is bound by no match and is in the list of unmatched
    documents. *)
Theorem C10_duplicate_titles (threshold : Z) (excel_titles : list (option str)) :
  NoDup (keys pdf_titles) ->
  exists matches unmatched_articles unmatched_pdfs,
    match_titles_fuzzy threshold excel_titles
    = Some (matches, unmatched_articles, unmatched_pdfs)
    /\ (forall idx info,
        In (idx, info) matches ->
        exists i,
          nth_error pdf_titles i = Some (filename info, pdf_title info)
          /\ forall j other,
              j < i -> nth_error pdf_titles j <> Some (other, pdf_title info))
    /\ (forall i j first later t,
        i < j ->
        nth_error pdf_titles i = Some (first, t) ->
        nth_error pdf_titles j = Some (later, t) ->
        ~ claimed matches later /\ In later unmatched_pdfs).
Proof.
  intros Hnd. do 3 eexists. split; [apply match_titles_fuzzy_eq|].
  assert (First : forall idx info,
             In (idx, info) (matched_from threshold 0 excel_titles) ->
             exists i,
               nth_error pdf_titles i = Some (filename info, pdf_title info)
               /\ forall j other,
                   j < i -> nth_error pdf_titles j <> Some (other, pdf_title info)).
  { intros idx info Hin. apply In_matched_from in Hin.
    destruct Hin as (j & e & _ & _ & Hr).
    apply record_match_inv in Hr. destruct Hr as (Hb & _ & Hf).
    destruct (filename_of_first _ (best_match_title _ Hb))
      as (name & i & Hf' & Hi & Hfirst).
    rewrite Hf in Hf'. injection Hf' as <-. now exists i. }
  split; [exact First|].
  intros i j first later t Hij Hi Hj.
  assert (Hnc : ~ claimed (matched_from threshold 0 excel_titles) later).
  { intros (idx & info & Hin & Hname).
    destruct (First _ _ Hin) as (k & Hk & Hfirst).
    rewrite Hname in Hk.
    assert (Ekj : k = j).
    { apply (proj1 (NoDup_nth_error (keys pdf_titles)) Hnd).
      - apply nth_error_Some. unfold keys. rewrite nth_error_map, Hk. discriminate.
      - unfold keys. now rewrite !nth_error_map, Hk, Hj. }
    subst k. rewrite Hj in Hk. injection Hk as Ht.
    apply (Hfirst i first Hij). now rewrite <- Ht. }
  split; [exact Hnc|].
  assert (Hkey : In later (keys pdf_titles)).
  { unfold keys. apply in_map_iff. exists (later, t). split; [reflexivity|].
    eapply nth_error_In. exact Hj. }
  destruct (@files_partition (matched_from threshold 0 excel_titles) _ Hkey)
    as [[Hc|Hu] _]; [contradiction | exact Hu].
Qed.

End MatcherFacts.

(** *** The matcher on concrete titles *)

Lemma exact_ratio_similarity : similarity exact_ratio.
Proof.
  split.
  - intros a b. unfold exact_ratio. destruct (str_eqb a b); lia.
  - intros a. unfold exact_ratio. now rewrite str_eqb_refl.
Qed.

(** C1, as stated, fails: two articles have the title of the one document
    of the index, and both matches are bound to this document. *)
Lemma C1_documents_counterexample :
  match_titles_fuzzy exact_ratio exact_ratio exact_ratio Samples.one_pdf 60
    Samples.two_articles
  = Some ([(0, MatchInfo (py "d.pdf") (py "x") 100 token_sort);
           (1, MatchInfo (py "d.pdf") (py "x") 100 token_sort)], [], []).
Proof. vm_compute. reflexivity. Qed.

(** C2, as stated, fails: the second article has no title, and position 1
    is neither a key of [matches] nor in the list of unmatched articles. *)
Lemma C2_articles_counterexample :
  match_titles_fuzzy exact_ratio exact_ratio exact_ratio Samples.one_pdf 60
    Samples.untitled
  = Some ([(0, MatchInfo (py "d.pdf") (py "x") 100 token_sort)], [], []).
Proof. vm_compute. reflexivity. Qed.

Lemma C3_identical_titles_witness :
  similarity exact_ratio
  /\ nth_error Samples.two_articles 1 = Some (Some (py "x"))
  /\ In (py "d.pdf", py "x") Samples.one_pdf
  /\ (exists m t,
        best_match exact_ratio exact_ratio exact_ratio Samples.one_pdf (py "x")
        = Some (m, t, 100%Z)).
Proof.
  split; [exact exact_ratio_similarity|].
  split; [reflexivity|]. split; [now left|].
  exact (proj1 (proj2
    (@C3_identical_titles exact_ratio exact_ratio exact_ratio Samples.one_pdf
       60 Samples.two_articles 1 (py "x") (py "d.pdf")
       exact_ratio_similarity exact_ratio_similarity exact_ratio_similarity
       eq_refl (or_introl eq_refl)))).
Defined.

Lemma C8_raise_threshold_witness :
  (0 <= 50)%Z
  /\ exists matches1 unmatched1 pdfs1 matches2 unmatched2 pdfs2,
      match_titles_fuzzy exact_ratio exact_ratio exact_ratio Samples.far_pdf 0
        Samples.far_articles = Some (matches1, unmatched1, pdfs1)
      /\ match_titles_fuzzy exact_ratio exact_ratio exact_ratio Samples.far_pdf 50
           Samples.far_articles = Some (matches2, unmatched2, pdfs2).
Proof.
  split; [lia|].
  destruct (@C8_raise_threshold exact_ratio exact_ratio exact_ratio
              Samples.far_pdf 0%Z 50%Z Samples.far_articles ltac:(lia))
    as (m1 & u1 & p1 & m2 & u2 & p2 & H1 & H2 & _).
  now exists m1, u1, p1, m2, u2, p2.
Defined.

(** C8, as stated, fails: both articles have a best score of 0; raising
    the threshold from 0 to 50, above the best score of article 0, takes
    the match of article 1 away as well. *)
Lemma C8_raise_threshold_counterexample :
  best_match exact_ratio exact_ratio exact_ratio Samples.far_pdf (py "abc")
  = Some (token_sort, py "xyz", 0%Z)
  /\ match_titles_fuzzy exact_ratio exact_ratio exact_ratio Samples.far_pdf 0
       Samples.far_articles
     = Some ([(0, MatchInfo (py "d.pdf") (py "xyz") 0 token_sort);
              (1, MatchInfo (py "d.pdf") (py "xyz") 0 token_sort)], [], [])
  /\ match_titles_fuzzy exact_ratio exact_ratio exact_ratio Samples.far_pdf 50
       Samples.far_articles
     = Some ([], [(0, py "abc"); (1, py "abc")], [py "d.pdf"]).
Proof. repeat split; vm_compute; reflexivity. Qed.

Lemma twin_pdfs_keys : NoDup (keys Samples.twin_pdfs).
Proof.
  repeat constructor; cbn; intuition discriminate.
Qed.

Lemma C10_duplicate_titles_witness :
  NoDup (keys Samples.twin_pdfs)
  /\ exists matches unmatched_articles unmatched_pdfs,
      match_titles_fuzzy exact_ratio exact_ratio exact_ratio Samples.twin_pdfs 60
        Samples.two_articles
      = Some (matches, unmatched_articles, unmatched_pdfs)
      /\ ~ claimed matches (py "b.pdf") /\ In (py "b.pdf") unmatched_pdfs.
Proof.
  split; [exact twin_pdfs_keys|].
  destruct (@C10_duplicate_titles exact_ratio exact_ratio exact_ratio
              Samples.twin_pdfs 60%Z Samples.two_articles twin_pdfs_keys)
    as (m & u & p & Hrun & _ & Hlater).
  exists m, u, p. split; [exact Hrun|].
  exact (Hlater 0 1 (py "a.pdf") (py "b.pdf") (py "x")
           (le_n 1) eq_refl eq_refl).
Defined.

(** ** The Reconciliation Reporter *)

Section ReporterFacts.

Lemma repeat_map {A B} (v : B) (l : list A) :
  repeat v (length l) = map (fun _ => v) l.
Proof. induction l as [|a l IH]; cbn; [reflexivity | now rewrite IH]. Qed.

(** A column of a new name goes to the end of the frame. *)
Lemma set_new_column (name : str) (col : list cell) (cols : dict str (list cell)) :
  ~ In name (keys cols) -> dict_set str_eqb name col cols = cols ++ [(name, col)].
Proof.
  induction cols as [|[n c] rest IH]; intros Hn; [reflexivity|].
  cbn [dict_set app]. cbn [keys map fst In] in Hn.
  destruct (str_eqb name n) eqn:E.
  - apply str_eqb_eq in E. subst. tauto.
  - f_equal. apply IH. intros H. apply Hn. now right.
Qed.

Lemma set_rows_map (idx : nat) (value : cell) (f : nat -> cell) (labels : list nat) :
  set_rows idx value labels (map f labels)
  = map (fun i => if Nat.eqb i idx then value else f i) labels.
Proof.
  unfold set_rows. induction labels as [|l labels IH]; [reflexivity|].
  cbn. now rewrite IH.
Qed.

Lemma augmented_ext (df : DataFrame) (f f' g g' : nat -> cell) :
  (forall i, f i = f' i) -> (forall i, g i = g' i) ->
  augmented df f g = augmented df f' g'.
Proof.
  intros Hf Hg. unfold augmented.
  now rewrite (map_ext f f' Hf), (map_ext g g' Hg).
Qed.

Variable df : DataFrame.
Hypothesis no_file_name : ~ In file_name (keys (columns df)).
Hypothesis no_match_confidence : ~ In match_confidence (keys (columns df)).

(** The two assignments of an empty string add the two columns. *)
Lemma set_columns_augmented :
  set_column match_confidence (Text []) (set_column file_name (Text []) df)
  = augmented df (fun _ => Text []) (fun _ => Text []).
Proof.
  unfold set_column, augmented, nrows. cbn [index columns].
  rewrite (@set_new_column _ _ _ no_file_name).
  rewrite set_new_column.
  - rewrite <- app_assoc, !repeat_map. reflexivity.
  - unfold keys. rewrite map_app. intros H. apply in_app_or in H.
    destruct H as [H|[H|[]]]; [now apply no_match_confidence | discriminate H].
Qed.

Lemma untouched_columns (name : str) (F : list cell -> list cell)
    (cols : dict str (list cell)) :
  ~ In name (keys cols) ->
  map (fun nc => if str_eqb (fst nc) name then (fst nc, F (snd nc)) else nc) cols
  = cols.
Proof.
  induction cols as [|[n c] rest IH]; intros Hn; [reflexivity|].
  cbn [map fst snd]. cbn [keys map fst In] in Hn.
  destruct (str_eqb n name) eqn:E.
  - apply str_eqb_eq in E. subst. tauto.
  - f_equal. apply IH. intros H. apply Hn. now right.
Qed.

Lemma In_existsb (idx : nat) (labels : list nat) :
  In idx labels -> existsb (Nat.eqb idx) labels = true.
Proof.
  intros H. apply existsb_exists. exists idx. split; [exact H|].
  apply Nat.eqb_refl.
Qed.

(** Writing one cell of the column [File Name], in a row of the frame. *)
Lemma loc_set_file_name (idx : nat) (value : cell) (f g : nat -> cell) :
  In idx (index df) ->
  loc_set idx file_name value (augmented df f g)
  = augmented df (fun i => if Nat.eqb i idx then value else f i) g.
Proof.
  intros Hin. unfold loc_set, augmented. cbn [index columns].
  rewrite (@In_existsb _ _ Hin). f_equal.
  rewrite map_app, (@untouched_columns _ _ _ no_file_name). f_equal.
  cbn [map fst snd].
  replace (str_eqb file_name file_name) with true
    by (symmetry; apply str_eqb_refl).
  replace (str_eqb match_confidence file_name) with false by reflexivity.
  now rewrite set_rows_map.
Qed.

(** Writing one cell of the column [Match Confidence]. *)
Lemma loc_set_match_confidence (idx : nat) (value : cell) (f g : nat -> cell) :
  In idx (index df) ->
  loc_set idx match_confidence value (augmented df f g)
  = augmented df f (fun i => if Nat.eqb i idx then value else g i).
Proof.
  intros Hin. unfold loc_set, augmented. cbn [index columns].
  rewrite (@In_existsb _ _ Hin). f_equal.
  rewrite map_app, (@untouched_columns _ _ _ no_match_confidence). f_equal.
  cbn [map fst snd].
  replace (str_eqb match_confidence match_confidence) with true
    by (symmetry; apply str_eqb_refl).
  replace (str_eqb file_name match_confidence) with false by reflexivity.
  now rewrite set_rows_map.
Qed.

(** The loop over the matches fills the two columns. *)
Lemma fill_matches (matches : dict nat match_info) :
  forall f g : nat -> cell,
    NoDup (keys matches) ->
    (forall idx, In idx (keys matches) -> In idx (index df)) ->
    fold_left fill_match matches (augmented df f g)
    = augmented df
        (fun i => match dict_get Nat.eqb i matches with
                  | Some info => Text (filename info)
                  | None => f i
                  end)
        (fun i => match dict_get Nat.eqb i matches with
                  | Some info => Text (percent (confidence info))
                  | None => g i
                  end).
Proof.
  induction matches as [|[k info] rest IH]; intros f g Hnd Hrows.
  - reflexivity.
  - cbn [fold_left fill_match].
    assert (Hk : In k (index df)) by (apply Hrows; now left).
    rewrite (@loc_set_file_name _ _ _ _ Hk), (@loc_set_match_confidence _ _ _ _ Hk).
    inversion Hnd as [|? ? Hnotin Hnd']; subst.
    rewrite IH; [|exact Hnd'|intros idx Hi; apply Hrows; now right].
    apply augmented_ext; intros i; cbn [dict_get];
      destruct (Nat.eqb i k) eqn:E.
    + apply Nat.eqb_eq in E. subst i.
      now rewrite (proj2 (@dict_get_None _ k rest) Hnotin).
    + reflexivity.
    + apply Nat.eqb_eq in E. subst i.
      now rewrite (proj2 (@dict_get_None _ k rest) Hnotin).
    + reflexivity.
Qed.

(** C9, as the source runs: for a catalog that has no column named
    [File Name] or [Match Confidence] and a match set whose positions are
    rows of the catalog, the result has the rows of the catalog in their
    order, the columns of the catalog unchanged and in their order, and
    after them exactly the two columns [File Name] and
    [Match Confidence]: a row without a match has the empty string in
    both, a row with a match has the file name and the confidence
    followed by a percent sign. *)
Theorem C9_augmented_catalog (matches : dict nat match_info) :
  NoDup (keys matches) ->
  (forall idx, In idx (keys matches) -> In idx (index df)) ->
  update_excel_file df matches
  = augmented df (file_name_cell matches) (confidence_cell matches).
Proof.
  intros Hnd Hrows. unfold update_excel_file.
  rewrite set_columns_augmented, (@fill_matches _ _ _ Hnd Hrows).
  apply augmented_ext; intros i; unfold file_name_cell, confidence_cell;
    destruct (dict_get Nat.eqb i matches); reflexivity.
Qed.

End ReporterFacts.

Lemma one_match_keys : NoDup (keys Samples.one_match).
Proof. repeat constructor. intros []. Qed.

Lemma C9_augmented_catalog_witness :
  ~ In file_name (keys (columns Samples.plain_frame))
  /\ ~ In match_confidence (keys (columns Samples.plain_frame))
  /\ update_excel_file Samples.plain_frame Samples.one_match
     = Frame [0; 1]
         [(py "Article", [Text (py "x"); Text (py "y")]);
          (py "File Name", [Text []; Text (py "d.pdf")]);
          (py "Match Confidence", [Text []; Text (py "87%")])].
Proof.
  assert (H1 : ~ In file_name (keys (columns Samples.plain_frame))).
  { cbn. intros [H|[]]. discriminate H. }
  assert (H2 : ~ In match_confidence (keys (columns Samples.plain_frame))).
  { cbn. intros [H|[]]. discriminate H. }
  split; [exact H1|]. split; [exact H2|].
  rewrite (@C9_augmented_catalog Samples.plain_frame H1 H2 Samples.one_match
             one_match_keys).
  - reflexivity.
  - intros idx [<-|[]]. cbn. auto.
Defined.

(** C9, as stated, fails: the catalog has a column [File Name] already;
    its cell is overwritten by the empty string, and one column is added
    instead of two. *)
Lemma C9_augmented_catalog_counterexample :
  dict_get str_eqb file_name (columns Samples.named_frame)
  = Some [Text (py "kept.pdf")]
  /\ update_excel_file Samples.named_frame []
     = Frame [0]
         [(py "Article", [Text (py "x")]);
          (py "File Name", [Text []]);
          (py "Match Confidence", [Text []])].
Proof. split; vm_compute; reflexivity. Qed.

(** * Further properties of the code *)

(** ** Trimmed and single-spaced strings *)

Section StripFacts.

Lemma drop_while_split (p : ascii -> bool) (s : str) :
  exists w, s = w ++ drop_while p s /\ forallb p w = true.
Proof.
  induction s as [|c t IH].
  - exists []. split; reflexivity.
  - cbn [drop_while]. destruct (p c) eqn:E.
    + destruct IH as (w & Hw & Hp). exists (c :: w). split.
      * cbn [app]. now rewrite <- Hw.
      * cbn [forallb]. now rewrite E, Hp.
    + exists []. split; reflexivity.
Qed.

Lemma drop_while_head (p : ascii -> bool) (s : str) (c : ascii) (t : str) :
  drop_while p s = c :: t -> p c = false.
Proof.
  induction s as [|a s IH]; [discriminate|].
  cbn [drop_while]. destruct (p a) eqn:E; [exact IH|].
  intros [= <- _]. exact E.
Qed.

Lemma drop_while_fixed (p : ascii -> bool) (s : str) :
  match s with [] => True | c :: _ => p c = false end ->
  drop_while p s = s.
Proof.
  destruct s as [|c t]; [reflexivity|]. cbn [drop_while]. now intros ->.
Qed.

Lemma drop_while_idem (p : ascii -> bool) (s : str) :
  drop_while p (drop_while p s) = drop_while p s.
Proof.
  apply drop_while_fixed.
  destruct (drop_while p s) as [|c t] eqn:E; [exact I|].
  now apply drop_while_head in E.
Qed.

Lemma drop_while_all (p : ascii -> bool) (s : str) :
  forallb p s = true -> drop_while p s = [].
Proof.
  induction s as [|c t IH]; [reflexivity|].
  cbn [forallb drop_while]. intros H. apply andb_true_iff in H.
  destruct H as [Hc Ht]. rewrite Hc. now apply IH.
Qed.

(** [rstrip] cuts a run of white space off the end. *)
Lemma rstrip_split (s : str) :
  exists w, s = rstrip s ++ w /\ forallb isspace w = true.
Proof.
  unfold rstrip.
  destruct (drop_while_split isspace (rev s)) as (w & Hw & Hp).
  exists (rev w). split.
  - rewrite <- rev_app_distr, <- Hw. symmetry. apply rev_involutive.
  - rewrite forallb_forall in *. intros x Hx. apply Hp. now apply in_rev.
Qed.

Lemma lstrip_split (s : str) :
  exists w, s = w ++ lstrip s /\ forallb isspace w = true.
Proof. apply drop_while_split. Qed.

(** A string without white space in front keeps none after [rstrip]. *)
Lemma rstrip_keeps_head (s : str) :
  match s with [] => True | c :: _ => isspace c = false end ->
  match rstrip s with [] => True | c :: _ => isspace c = false end.
Proof.
  intros H. destruct (rstrip_split s) as (w & Hw & _).
  destruct (rstrip s) as [|c t]; [exact I|].
  rewrite Hw in H. exact H.
Qed.

Lemma strip_head (s : str) :
  match strip s with [] => True | c :: _ => isspace c = false end.
Proof.
  unfold strip. apply rstrip_keeps_head. unfold lstrip.
  destruct (drop_while isspace s) as [|c t] eqn:E; [exact I|].
  now apply drop_while_head in E.
Qed.

Lemma rstrip_idem (s : str) : rstrip (rstrip s) = rstrip s.
Proof.
  unfold rstrip. now rewrite rev_involutive, drop_while_idem.
Qed.

(** Stripping a stripped string changes nothing. *)
Lemma strip_idem (s : str) : strip (strip s) = strip s.
Proof.
  unfold strip at 1.
  replace (lstrip (strip s)) with (strip s).
  - unfold strip. apply rstrip_idem.
  - symmetry. apply drop_while_fixed, strip_head.
Qed.

Lemma strip_blank (s : str) : forallb isspace s = true -> strip s = [].
Proof.
  intros H. unfold strip, lstrip. now rewrite (drop_while_all _ _ H).
Qed.

Lemma single_spaced_tail (c : ascii) (t : str) :
  single_spaced (c :: t) = true -> single_spaced t = true.
Proof.
  cbn [single_spaced]. destruct (isspace c); [|auto].
  intros H. apply andb_true_iff in H. tauto.
Qed.

Lemma single_spaced_suffix (w s : str) :
  single_spaced (w ++ s) = true -> single_spaced s = true.
Proof.
  induction w as [|c w IH]; [auto|].
  intros H. apply IH. eapply single_spaced_tail. exact H.
Qed.

Lemma single_spaced_prefix (s w : str) :
  single_spaced (s ++ w) = true -> single_spaced s = true.
Proof.
  induction s as [|c s IH]; [reflexivity|].
  cbn [app single_spaced]. destruct (isspace c); [|exact IH].
  intros H. apply andb_true_iff in H. destruct H as [H Ht].
  apply andb_true_iff in H. destruct H as [Hc Hn].
  rewrite Hc, (IH Ht), andb_true_r. cbn [andb].
  destruct s as [|c' s']; [reflexivity | exact Hn].
Qed.

Lemma single_spaced_strip (s : str) :
  single_spaced s = true -> single_spaced (strip s) = true.
Proof.
  intros H. unfold strip.
  destruct (lstrip_split s) as (w1 & H1 & _).
  destruct (rstrip_split (lstrip s)) as (w2 & H2 & _).
  rewrite H1 in H. apply single_spaced_suffix in H.
  rewrite H2 in H. now apply single_spaced_prefix in H.
Qed.

Lemma sub_spaces_head (s : str) :
  match Re.sub_spaces s with
  | c :: _ => isspace c = true -> c = " "%char
  | [] => True
  end.
Proof.
  induction s as [|c t IH]; [exact I|].
  cbn [Re.sub_spaces]. destruct (isspace c) eqn:E.
  - destruct t as [|c' t']; [auto|].
    destruct (isspace c'); [exact IH | auto].
  - congruence.
Qed.

(** After [re.sub(r'\s+', ' ', s)] the white space is single spaces. *)
Lemma sub_spaces_single (s : str) : single_spaced (Re.sub_spaces s) = true.
Proof.
  induction s as [|c t IH]; [reflexivity|].
  cbn [Re.sub_spaces]. destruct (isspace c) eqn:E.
  - destruct t as [|c' t']; [reflexivity|].
    destruct (isspace c') eqn:E'; [exact IH|].
    cbn [single_spaced]. cbn [Re.sub_spaces] in IH |- *.
    rewrite E' in IH |- *.
    replace (isspace " "%char) with true by reflexivity.
    cbn [Ascii.eqb]. rewrite E'. exact IH.
  - cbn [single_spaced]. now rewrite E.
Qed.

End StripFacts.

(** ** The cleaning functions *)

Section CleaningFacts.

Lemma match_article_length (w title r : str) :
  Re.match_article w title = Some r -> length r <= length title.
Proof.
  unfold Re.match_article.
  destruct (str_eqb (lower (firstn (length w) title)) w); [|discriminate].
  destruct (skipn (length w) title) as [|c rest] eqn:E; [discriminate|].
  destruct (isspace c); [|discriminate]. intros [= <-].
  pose proof (drop_while_length isspace rest) as H1.
  pose proof (length_skipn (length w) title) as H2.
  rewrite E in H2. cbn [length] in H2. lia.
Qed.

Lemma sub_leading_article_length (title : str) :
  length (Re.sub_leading_article title) <= length title.
Proof.
  unfold Re.sub_leading_article.
  destruct (Re.match_article (py "the") title) eqn:E1;
    [now apply match_article_length in E1|].
  destruct (Re.match_article (py "an") title) eqn:E2;
    [now apply match_article_length in E2|].
  destruct (Re.match_article (py "a") title) eqn:E3;
    [now apply match_article_length in E3 | lia].
Qed.

Lemma sub_trailing_comma_length (title : str) :
  length (Re.sub_trailing_comma title) <= length title.
Proof.
  unfold Re.sub_trailing_comma.
  pose proof (drop_while_length isspace (rev title)) as H.
  rewrite length_rev in H.
  destruct (drop_while isspace (rev title)) as [|c r]; [lia|].
  destruct (existsb (Ascii.eqb c) (py ",;")); [|lia].
  rewrite length_rev. pose proof (drop_while_length isspace r).
  cbn [length] in H. lia.
Qed.

(** X1: [clean_title_line] never lengthens a line, and what it returns is
    trimmed, has single spaces as its only white space, and has none of
    the words [www.], [copyright], [journal], [vol.], [no.] and [page] in
    any case. *)
Theorem clean_title_line_normal (line : str) :
  length (clean_title_line line) <= length line
  /\ strip (clean_title_line line) = clean_title_line line
  /\ single_spaced (clean_title_line line) = true
  /\ any_in line_noise (lower (clean_title_line line)) = false.
Proof.
  split; [apply clean_title_line_length|].
  unfold clean_title_line. destruct line as [|c t]; [repeat split|].
  match goal with |- context [if ?b then _ else _] => destruct b eqn:E end;
    [repeat split|].
  split; [apply strip_idem|]. split; [|exact E].
  apply single_spaced_strip, sub_spaces_single.
Qed.

Lemma clean_full_title_length (title : str) :
  length (clean_full_title title) <= length title.
Proof.
  unfold clean_full_title. destruct title as [|c t]; [reflexivity|].
  etransitivity; [apply strip_length|].
  etransitivity; [apply sub_trailing_comma_length|].
  etransitivity; [apply sub_leading_article_length|].
  etransitivity; [apply strip_length|].
  apply sub_spaces_length.
Qed.

Lemma clean_full_title_trimmed (title : str) :
  strip (clean_full_title title) = clean_full_title title.
Proof.
  unfold clean_full_title. destruct title as [|c t]; [reflexivity|].
  apply strip_idem.
Qed.

(** X2: [clean_full_title] never lengthens a title, and what it returns is
    trimmed. *)
Theorem clean_full_title_normal (title : str) :
  length (clean_full_title title) <= length title
  /\ strip (clean_full_title title) = clean_full_title title.
Proof.
  split; [apply clean_full_title_length | apply clean_full_title_trimmed].
Qed.

End CleaningFacts.

(** ** The Title Extractor, further *)

Section ExtractorFacts.

Lemma meaningful_lines_bound (lines : list str) (l : str) :
  In l (meaningful_lines lines) -> length l < 200.
Proof.
  unfold meaningful_lines. intros H. apply filter_In in H.
  destruct H as [_ H]. apply andb_true_iff in H. destruct H as [_ H].
  now apply Nat.ltb_lt in H.
Qed.

(** X3: a title returned by [extract_title_from_text] is trimmed and has
    fewer than 300 characters. *)
Theorem extracted_title_shape (text : str) :
  match extract_title_from_text text with
  | Some title => strip title = title /\ length title < 300
  | None => True
  end.
Proof.
  unfold extract_title_from_text.
  destruct (text_lines text) as [|l ls]; [exact I|].
  destruct (assembled_title (l :: ls)) as [t|] eqn:A.
  - split; [|now apply assembled_title_length in A].
    unfold assembled_title in A.
    destruct (title_start_idx (l :: ls) <? length (l :: ls)); [|discriminate].
    destruct (collect_title_lines (title_window (l :: ls))); [discriminate|].
    match type of A with context [if ?b then _ else _] => destruct b end;
      [|discriminate].
    injection A as <-. apply clean_full_title_trimmed.
  - unfold longest_line_title.
    match goal with
    | |- context [py_max ?k ?m] => destruct (py_max k m) as [longest|] eqn:M
    end; [|exact I].
    apply py_max_first_max, first_max_In, meaningful_lines_bound in M.
    pose proof (clean_full_title_length longest) as Hlen.
    split; [apply clean_full_title_trimmed | lia].
Qed.

Lemma split_lines_blank (s : str) :
  forallb isspace s = true ->
  Forall (fun l => forallb isspace l = true) (split_lines s).
Proof.
  induction s as [|c t IH]; intros H.
  - repeat constructor.
  - cbn [forallb] in H. apply andb_true_iff in H. destruct H as [Hc Ht].
    specialize (IH Ht). cbn [split_lines].
    destruct (Ascii.eqb c nl); [now constructor|].
    destruct (split_lines t) as [|h r].
    + constructor; [|constructor]. cbn [forallb]. now rewrite Hc.
    + inversion IH; subst. constructor; [|assumption].
      cbn [forallb]. now rewrite Hc.
Qed.

(** X4: a text of white space only (blank lines, spaces, tabs) has no
    line left after trimming, and [extract_title_from_text] returns
    [None]. *)
Theorem blank_text_no_title (text : str) :
  forallb isspace text = true ->
  text_lines text = [] /\ extract_title_from_text text = None.
Proof.
  intros H.
  assert (L : text_lines text = []).
  { unfold text_lines. apply split_lines_blank in H.
    induction H as [|l ls Hl _ IH]; [reflexivity|].
    cbn [filter]. rewrite (strip_blank _ Hl). exact IH. }
  split; [exact L|]. unfold extract_title_from_text. now rewrite L.
Qed.

Lemma blank_text_no_title_witness :
  forallb isspace MoreSamples.blank_text = true
  /\ extract_title_from_text MoreSamples.blank_text = None.
Proof.
  split; [reflexivity|].
  exact (proj2 (@blank_text_no_title MoreSamples.blank_text eq_refl)).
Defined.

End ExtractorFacts.

(** ** Where the title is looked for *)

Section WindowFacts.

Lemma scan_start_bound (lines : list str) :
  forall i j, scan_start i lines = Some j -> j <= i + length lines.
Proof.
  induction lines as [|line rest IH]; intros i j; [discriminate|].
  cbn [scan_start length].
  destruct (any_in header_words (lower line)).
  - intros H. apply IH in H. lia.
  - destruct (any_in section_words (lower line)); [intros [= <-]; lia|].
    destruct ((20 <? length line) && (i <? 10)); [intros [= <-]; lia|].
    intros H. apply IH in H. lia.
Qed.

(** The title starts among the first fifteen lines, or just after them. *)
Lemma title_start_idx_bound (lines : list str) : title_start_idx lines <= 15.
Proof.
  unfold title_start_idx.
  destruct (scan_start 0 (firstn 15 lines)) as [j|] eqn:E; [|lia].
  apply scan_start_bound in E.
  pose proof (firstn_le_length 15 lines). lia.
Qed.

Lemma title_start_idx_firstn (lines : list str) :
  title_start_idx (firstn 20 lines) = title_start_idx lines.
Proof.
  unfold title_start_idx. now rewrite firstn_firstn.
Qed.

Lemma assembled_title_firstn (lines : list str) :
  assembled_title (firstn 20 lines) = assembled_title lines.
Proof.
  unfold assembled_title, title_window.
  rewrite title_start_idx_firstn.
  pose proof (title_start_idx_bound lines) as Hs.
  set (s := title_start_idx lines) in *.
  replace (s <? length (firstn 20 lines)) with (s <? length lines).
  - rewrite skipn_firstn_comm, firstn_firstn.
    replace (Nat.min 5 (20 - s)) with 5 by lia. reflexivity.
  - rewrite length_firstn.
    destruct (s <? length lines) eqn:E; symmetry.
    + apply Nat.ltb_lt in E. apply Nat.ltb_lt. lia.
    + apply Nat.ltb_ge in E. apply Nat.ltb_ge. lia.
Qed.

Lemma longest_line_title_firstn (lines : list str) :
  longest_line_title (firstn 20 lines) = longest_line_title lines.
Proof.
  unfold longest_line_title, meaningful_lines.
  rewrite firstn_firstn. reflexivity.
Qed.

(** X5: the title depends on the first twenty non-empty lines of the text
    only: two texts with the same first twenty trimmed lines have the
    same title. *)
Theorem first_twenty_lines (text1 text2 : str) :
  firstn 20 (text_lines text1) = firstn 20 (text_lines text2) ->
  extract_title_from_text text1 = extract_title_from_text text2.
Proof.
  intros H. unfold extract_title_from_text.
  rewrite <- (assembled_title_firstn (text_lines text1)).
  rewrite <- (assembled_title_firstn (text_lines text2)).
  rewrite <- (longest_line_title_firstn (text_lines text1)).
  rewrite <- (longest_line_title_firstn (text_lines text2)).
  rewrite H.
  destruct (text_lines text1) as [|a la]; destruct (text_lines text2) as [|b lb];
    try reflexivity; discriminate H.
Qed.

Lemma first_twenty_lines_witness :
  text_lines (MoreSamples.long_text (py "one"))
  <> text_lines (MoreSamples.long_text (py "Another last line of this text"))
  /\ extract_title_from_text (MoreSamples.long_text (py "one"))
     = extract_title_from_text
         (MoreSamples.long_text (py "Another last line of this text")).
Proof.
  split; [vm_compute; discriminate|].
  apply (@first_twenty_lines (MoreSamples.long_text (py "one"))
           (MoreSamples.long_text (py "Another last line of this text"))).
  vm_compute. reflexivity.
Defined.

(** *** The rules of the collection *)

(** X6: a line that has [abstract], [introduction], [keywords],
    [received:] or [doi:] in any case ends the collection and is left
    out, with every line after it. *)
Theorem stop_word_line_excluded (pre rest : list str) (line : str) :
  any_in stop_words (lower (clean_title_line line)) = true ->
  collect_title_lines (pre ++ line :: rest) = collect_title_lines pre.
Proof.
  intros H. apply collect_cut; [|now left].
  intros E. rewrite E in H. discriminate H.
Qed.

Lemma stop_word_line_excluded_witness :
  collect_title_lines
    ([py "Soft Grippers for Legged Robots"]
     ++ py "Abstract" :: [py "Robots walk"])
  = collect_title_lines [py "Soft Grippers for Legged Robots"].
Proof.
  apply (@stop_word_line_excluded [py "Soft Grippers for Legged Robots"]
           [py "Robots walk"] (py "Abstract")).
  vm_compute. reflexivity.
Defined.

(** X7: a line that ends in [.], [?] or [!] and is neither a stop line
    nor an author line is collected and is the last fragment.  When the
    lines in front of it are skipped or collected without ending the
    collection, the fragments are the cleaned, non-empty lines in front
    of it followed by this line, cleaned; the lines after it add
    nothing. *)
Theorem sentence_ends_title (pre rest : list str) (line : str) :
  Forall (fun l =>
            clean_title_line l = []
            \/ (any_in stop_words (lower (clean_title_line l)) = false
                /\ author_like (clean_title_line l) = false
                /\ ends_sentence (clean_title_line l) = false))
         pre ->
  any_in stop_words (lower (clean_title_line line)) = false ->
  author_like (clean_title_line line) = false ->
  ends_sentence (clean_title_line line) = true ->
  collect_title_lines (pre ++ line :: rest)
  = filter (fun c => negb (str_eqb c [])) (map clean_title_line pre)
    ++ [clean_title_line line].
Proof.
  intros Hpre Hs Ha He.
  induction Hpre as [|l pre Hl Hpre IH].
  - cbn [app map filter]. rewrite collect_title_lines_cons.
    destruct (clean_title_line line) as [|c t] eqn:E; [discriminate He|].
    now rewrite Hs, Ha, He.
  - rewrite <- app_comm_cons, collect_title_lines_cons. cbn [map filter].
    destruct Hl as [Hl|(Hl1 & Hl2 & Hl3)].
    + rewrite Hl. cbn. exact IH.
    + destruct (clean_title_line l) as [|c t] eqn:E; [cbn; exact IH|].
      rewrite Hl1, Hl2, Hl3.
      replace (negb (str_eqb (c :: t) [])) with true.
      * cbn [app]. now rewrite IH.
      * symmetry. apply negb_true_iff, str_eqb_neq. discriminate.
Qed.

Lemma sentence_ends_title_witness :
  collect_title_lines
    ([py "Soft Grippers"] ++ py "for Legged Robots." :: [py "Robots walk"])
  = [py "Soft Grippers"; py "for Legged Robots."].
Proof.
  rewrite (@sentence_ends_title [py "Soft Grippers"] [py "Robots walk"]
             (py "for Legged Robots.")).
  - vm_compute. reflexivity.
  - constructor; [right; repeat split; vm_compute; reflexivity | constructor].
  - vm_compute. reflexivity.
  - vm_compute. reflexivity.
  - vm_compute. reflexivity.
Defined.

(** X8: a line that [clean_title_line] empties (a number, or a line with
    [www.], [copyright], [journal], [vol.], [no.] or [page]) is skipped:
    the fragments are those of the other lines. *)
Theorem noise_line_skipped (pre rest : list str) (line : str) :
  clean_title_line line = [] ->
  collect_title_lines (pre ++ line :: rest) = collect_title_lines (pre ++ rest).
Proof.
  intros E.
  induction pre as [|l pre IH].
  - cbn [app]. rewrite collect_title_lines_cons. now rewrite E.
  - rewrite <- !app_comm_cons, !collect_title_lines_cons.
    destruct (clean_title_line l) as [|c t]; [exact IH|].
    destruct (any_in stop_words (lower (c :: t))); [reflexivity|].
    destruct (author_like (c :: t)); [reflexivity|].
    destruct (ends_sentence (c :: t)); [reflexivity|].
    now rewrite IH.
Qed.

Lemma noise_line_skipped_witness :
  collect_title_lines
    ([py "Soft Grippers"] ++ py "Page 12" :: [py "for Legged Robots"])
  = collect_title_lines ([py "Soft Grippers"] ++ [py "for Legged Robots"]).
Proof.
  apply (@noise_line_skipped [py "Soft Grippers"] [py "for Legged Robots"]
           (py "Page 12")).
  vm_compute. reflexivity.
Defined.

End WindowFacts.

(** ** The Fuzzy Matcher, further *)

Section MatcherMore.

Variables token_sort_ratio partial_ratio token_set_ratio : str -> str -> Z.
Variable pdf_titles : dict str str.

Local Abbreviation best_match :=
  (best_match token_sort_ratio partial_ratio token_set_ratio pdf_titles).
Local Abbreviation record_match :=
  (record_match token_sort_ratio partial_ratio token_set_ratio pdf_titles).
Local Abbreviation matched_from :=
  (matched_from token_sort_ratio partial_ratio token_set_ratio pdf_titles).
Local Abbreviation unmatched_from :=
  (unmatched_from token_sort_ratio partial_ratio token_set_ratio pdf_titles).
Local Abbreviation match_titles_fuzzy :=
  (match_titles_fuzzy token_sort_ratio partial_ratio token_set_ratio pdf_titles).

Lemma unmatched_from_keys_ge (threshold : Z) (excel_titles : list (option str))
    (idx k : nat) :
  In k (map fst (unmatched_from threshold idx excel_titles)) -> idx <= k.
Proof.
  intros H. apply in_map_iff in H.
  destruct H as ([k' e] & Hk & Hin). cbn in Hk. subst k'.
  apply In_unmatched_from in Hin. destruct Hin as (j & -> & _). lia.
Qed.

Lemma matched_from_sorted (threshold : Z) (excel_titles : list (option str)) :
  forall idx, StronglySorted lt (keys (matched_from threshold idx excel_titles)).
Proof.
  induction excel_titles as [|[e|] rest IH]; intros idx;
    cbn [Matcher.matched_from]; [constructor| |apply IH].
  destruct (record_match threshold e) as [info|]; [|apply IH].
  cbn [keys map fst]. constructor; [apply IH|].
  apply Forall_forall. intros k Hk.
  apply matched_from_keys_ge in Hk. lia.
Qed.

Lemma unmatched_from_sorted (threshold : Z) (excel_titles : list (option str)) :
  forall idx,
    StronglySorted lt (map fst (unmatched_from threshold idx excel_titles)).
Proof.
  induction excel_titles as [|[e|] rest IH]; intros idx;
    cbn [Matcher.unmatched_from]; [constructor| |apply IH].
  destruct (record_match threshold e) as [info|]; [apply IH|].
  cbn [map fst]. constructor; [apply IH|].
  apply Forall_forall. intros k Hk.
  apply unmatched_from_keys_ge in Hk. lia.
Qed.

(** The number of titles that are not missing. *)
Local Abbreviation titled :=
  (filter (fun t : option str => match t with Some _ => true | None => false end)).

Lemma matched_unmatched_count (threshold : Z) (excel_titles : list (option str)) :
  forall idx,
    length (matched_from threshold idx excel_titles)
    + length (unmatched_from threshold idx excel_titles)
    = length (titled excel_titles).
Proof.
  induction excel_titles as [|[e|] rest IH]; intros idx;
    cbn [Matcher.matched_from Matcher.unmatched_from filter];
    [reflexivity| |apply IH].
  specialize (IH (S idx)).
  destruct (record_match threshold e); cbn [length]; lia.
Qed.

(** X9: for a catalog whose titles are strings or missing, the look-up of
    the file of a matched title never fails: [pdf_title_list.index] finds
    the title and [pdf_filename_list] has that position, so the loop runs
    to its end.  The matches and the unmatched articles together are as
    many as the articles with a title, and the unmatched documents are
    documents of the index. *)
Theorem matcher_returns (threshold : Z) (excel_titles : list (option str)) :
  exists matches unmatched_articles unmatched_pdfs,
    match_titles_fuzzy threshold excel_titles
    = Some (matches, unmatched_articles, unmatched_pdfs)
    /\ length matches + length unmatched_articles
       = length (titled excel_titles)
    /\ incl unmatched_pdfs (keys pdf_titles).
Proof.
  do 3 eexists. split; [apply match_titles_fuzzy_eq|].
  split; [apply matched_unmatched_count|].
  intros name H. now apply filter_In in H.
Qed.

(** X10: the matches and the unmatched articles are recorded in the order
    of the catalog, each position once, and every recorded position is a
    row of the catalog. *)
Theorem matcher_catalog_order (threshold : Z) (excel_titles : list (option str)) :
  exists matches unmatched_articles unmatched_pdfs,
    match_titles_fuzzy threshold excel_titles
    = Some (matches, unmatched_articles, unmatched_pdfs)
    /\ StronglySorted lt (keys matches)
    /\ StronglySorted lt (map fst unmatched_articles)
    /\ (forall idx, In idx (keys matches) -> idx < length excel_titles)
    /\ (forall idx, In idx (map fst unmatched_articles) ->
        idx < length excel_titles).
Proof.
  do 3 eexists. split; [apply match_titles_fuzzy_eq|].
  split; [apply matched_from_sorted|].
  split; [apply unmatched_from_sorted|]. split.
  - intros idx H. unfold keys in H. apply in_map_iff in H.
    destruct H as ([k info] & Hk & Hin). cbn in Hk. subst k.
    apply In_matched_from in Hin. destruct Hin as (j & e & -> & Hn & _).
    cbn [Nat.add]. apply nth_error_Some. congruence.
  - intros idx H. apply in_map_iff in H.
    destruct H as ([k e] & Hk & Hin). cbn in Hk. subst k.
    apply In_unmatched_from in Hin. destruct Hin as (j & -> & Hn & _).
    cbn [Nat.add]. apply nth_error_Some. congruence.
Qed.

(** X11: every match reaches the threshold and is bound to a document of
    the index that has the matched title; an article is listed as
    unmatched only when its best candidate, if it has one, is below the
    threshold. *)
Theorem match_accept_reject (threshold : Z) (excel_titles : list (option str)) :
  exists matches unmatched_articles unmatched_pdfs,
    match_titles_fuzzy threshold excel_titles
    = Some (matches, unmatched_articles, unmatched_pdfs)
    /\ (forall idx info,
        In (idx, info) matches ->
        (threshold <= confidence info)%Z
        /\ In (filename info, pdf_title info) pdf_titles)
    /\ (forall idx excel_title,
        In (idx, excel_title) unmatched_articles ->
        nth_error excel_titles idx = Some (Some excel_title)
        /\ forall m t c,
            best_match excel_title = Some (m, t, c) -> (c < threshold)%Z).
Proof.
  do 3 eexists. split; [apply match_titles_fuzzy_eq|]. split.
  - intros idx info Hin. apply In_matched_from in Hin.
    destruct Hin as (j & e & _ & _ & Hr).
    apply record_match_inv in Hr. destruct Hr as (Hb & Hc & Hf).
    split; [exact Hc|].
    destruct (@filename_of_first pdf_titles _ (best_match_title _ _ _ _ _ Hb))
      as (name & i & Hf' & Hi & _).
    rewrite Hf in Hf'. injection Hf' as <-.
    eapply nth_error_In. exact Hi.
  - intros idx e Hin. apply In_unmatched_from in Hin.
    destruct Hin as (j & -> & Hn & Hr). split; [exact Hn|].
    intros m t c Hb.
    destruct (Z.lt_ge_cases c threshold) as [Hlt|Hge]; [exact Hlt|].
    destruct (record_match_matched _ _ _ _ _ Hb Hge) as (name & _ & Hr').
    congruence.
Qed.

End MatcherMore.

(** *** An empty index *)

Section EmptyIndex.

Variables token_sort_ratio partial_ratio token_set_ratio : str -> str -> Z.

Lemma matched_from_empty (threshold : Z) (excel_titles : list (option str)) :
  forall idx,
    matched_from token_sort_ratio partial_ratio token_set_ratio [] threshold
      idx excel_titles = [].
Proof.
  induction excel_titles as [|[e|] rest IH]; intros idx;
    cbn [matched_from]; [reflexivity| |apply IH].
  replace (record_match token_sort_ratio partial_ratio token_set_ratio []
             threshold e) with (@None match_info) by reflexivity.
  apply IH.
Qed.

(** X12: with an index of no document, no strategy has a candidate: there
    is no match and no unmatched document, and the unmatched articles are
    exactly the articles that have a title. *)
Theorem empty_index_no_match (threshold : Z) (excel_titles : list (option str)) :
  exists unmatched_articles,
    match_titles_fuzzy token_sort_ratio partial_ratio token_set_ratio []
      threshold excel_titles
    = Some ([], unmatched_articles, [])
    /\ forall idx excel_title,
        In (idx, excel_title) unmatched_articles
        <-> nth_error excel_titles idx = Some (Some excel_title).
Proof.
  eexists. split.
  - rewrite match_titles_fuzzy_eq, matched_from_empty. reflexivity.
  - intros idx e. rewrite In_unmatched_from. split.
    + intros (j & -> & Hn & _). exact Hn.
    + intros Hn. exists idx. repeat split; auto.
Qed.

End EmptyIndex.

(** ** The Reconciliation Reporter, further *)

Section ReporterMore.

Lemma dict_set_keys_present {V} (k : str) (v : V) (d : dict str V) :
  In k (keys d) -> keys (dict_set str_eqb k v d) = keys d.
Proof.
  induction d as [|[k' v'] rest IH]; [intros []|].
  cbn [dict_set keys map fst In]. intros H.
  destruct (str_eqb k k') eqn:E; [reflexivity|].
  apply str_eqb_neq in E. cbn [keys map fst]. f_equal.
  apply IH. destruct H as [H|H]; [congruence | exact H].
Qed.

Lemma loc_set_column_names (idx : nat) (name : str) (value : cell)
    (df : DataFrame) :
  keys (columns (loc_set idx name value df)) = keys (columns df).
Proof.
  unfold loc_set, keys.
  destruct (existsb (Nat.eqb idx) (index df)); cbn [columns];
    rewrite map_map; apply map_ext; intros [n c]; cbn [fst snd];
    [destruct (str_eqb n name)|]; reflexivity.
Qed.

Lemma fill_match_column_names (df : DataFrame) (item : nat * match_info) :
  keys (columns (fill_match df item)) = keys (columns df).
Proof.
  destruct item as [idx info]. unfold fill_match.
  now rewrite !loc_set_column_names.
Qed.

Lemma fold_fill_column_names (matches : dict nat match_info) :
  forall df,
    keys (columns (fold_left fill_match matches df)) = keys (columns df).
Proof.
  induction matches as [|item rest IH]; intros df; [reflexivity|].
  cbn [fold_left]. now rewrite IH, fill_match_column_names.
Qed.

(** X13: for a catalog that has the two columns [File Name] and
    [Match Confidence] already, as the file the reporter wrote,
    [update_excel_file] adds no column: the names of the columns and
    their order are unchanged, for every match set. *)
Theorem rerun_adds_no_column (df : DataFrame) (matches : dict nat match_info) :
  In file_name (keys (columns df)) ->
  In match_confidence (keys (columns df)) ->
  keys (columns (update_excel_file df matches)) = keys (columns df).
Proof.
  intros H1 H2. unfold update_excel_file.
  rewrite fold_fill_column_names. unfold set_column. cbn [columns index].
  rewrite dict_set_keys_present; rewrite dict_set_keys_present; auto.
Qed.

Lemma rerun_adds_no_column_witness :
  keys (columns (update_excel_file MoreSamples.rerun_frame Samples.one_match))
  = [py "Article"; py "File Name"; py "Match Confidence"].
Proof.
  rewrite (@rerun_adds_no_column MoreSamples.rerun_frame Samples.one_match).
  - reflexivity.
  - right. left. reflexivity.
  - right. right. left. reflexivity.
Defined.

(** *** Rows *)

Lemma existsb_eqb_In (idx : nat) (labels : list nat) :
  existsb (Nat.eqb idx) labels = false -> ~ In idx labels.
Proof.
  intros H Hin. rewrite (@In_existsb _ _ Hin) in H. discriminate.
Qed.

Lemma loc_set_index (idx : nat) (name : str) (value : cell) (df : DataFrame) :
  index (loc_set idx name value df)
  = if existsb (Nat.eqb idx) (index df) then index df else index df ++ [idx].
Proof.
  unfold loc_set. destruct (existsb (Nat.eqb idx) (index df)); reflexivity.
Qed.

(** One step of the loop keeps the rows of the frame, and adds the row
    [idx] at the end when the frame has no such row. *)
Lemma fill_match_index (df : DataFrame) (idx : nat) (info : match_info) :
  index (fill_match df (idx, info)) = index df
  \/ (~ In idx (index df) /\ index (fill_match df (idx, info)) = index df ++ [idx]).
Proof.
  unfold fill_match. rewrite !loc_set_index.
  destruct (existsb (Nat.eqb idx) (index df)) eqn:E.
  - left. now rewrite E.
  - right. split; [now apply existsb_eqb_In|].
    replace (existsb (Nat.eqb idx) (index df ++ [idx])) with true; [reflexivity|].
    symmetry. apply In_existsb. apply in_or_app. right. now left.
Qed.

Lemma fold_fill_index (matches : dict nat match_info) :
  forall df,
    exists extra,
      index (fold_left fill_match matches df) = index df ++ extra
      /\ forall k, In k extra -> In k (keys matches) /\ ~ In k (index df).
Proof.
  induction matches as [|[idx info] rest IH]; intros df.
  - exists []. split; [now rewrite app_nil_r | intros k []].
  - cbn [fold_left].
    destruct (IH (fill_match df (idx, info))) as (e2 & He2 & Hk2).
    destruct (fill_match_index df idx info) as [Hi|[Hn Hi]].
    + exists e2. rewrite He2, Hi. split; [reflexivity|].
      intros k Hk. destruct (Hk2 k Hk) as [Ha Hb]. rewrite Hi in Hb.
      split; [now right | exact Hb].
    + exists (idx :: e2). rewrite He2, Hi, <- app_assoc. split; [reflexivity|].
      intros k [<-|Hk]; [split; [now left | exact Hn]|].
      destruct (Hk2 k Hk) as [Ha Hb]. rewrite Hi in Hb.
      split; [now right|]. intros Hin. apply Hb. apply in_or_app. now left.
Qed.

(** X14: [update_excel_file] keeps the rows of the catalog in their order;
    it adds a row at the end for every match position that is no row of
    the catalog, and no other row.  With match positions that are rows of
    the catalog the rows are unchanged. *)
Theorem rows_kept (df : DataFrame) (matches : dict nat match_info) :
  exists extra,
    index (update_excel_file df matches) = index df ++ extra
    /\ (forall k, In k extra -> In k (keys matches) /\ ~ In k (index df))
    /\ ((forall k, In k (keys matches) -> In k (index df)) -> extra = []).
Proof.
  unfold update_excel_file.
  destruct (fold_fill_index matches
              (set_column match_confidence (Text [])
                 (set_column file_name (Text []) df))) as (extra & He & Hk).
  cbn [set_column index] in He, Hk.
  exists extra. split; [exact He|]. split; [exact Hk|].
  intros Hrows. destruct extra as [|k extra]; [reflexivity|].
  destruct (Hk k (or_introl eq_refl)) as [Ha Hb].
  exfalso. apply Hb, Hrows, Ha.
Qed.

End ReporterMore.

(** *** Frames with one cell per row *)

Section RectangularFacts.

Lemma dict_set_Forall {V} (P : str * V -> Prop) (k : str) (v : V)
    (d : dict str V) :
  (forall k', P (k', v)) -> Forall P d -> Forall P (dict_set str_eqb k v d).
Proof.
  intros Hv Hd. induction Hd as [|[k' v'] rest Hx Hrest IH].
  - repeat constructor. apply Hv.
  - cbn [dict_set]. destruct (str_eqb k k'); constructor; auto.
Qed.

Lemma set_column_rectangular (name : str) (value : cell) (df : DataFrame) :
  rectangular df -> rectangular (set_column name value df).
Proof.
  unfold rectangular, set_column, nrows. cbn [index columns].
  apply dict_set_Forall. intros k'. cbn [snd]. apply repeat_length.
Qed.

Lemma loc_set_rectangular (idx : nat) (name : str) (value : cell)
    (df : DataFrame) :
  rectangular df -> rectangular (loc_set idx name value df).
Proof.
  unfold rectangular, loc_set, nrows. intros H.
  destruct (existsb (Nat.eqb idx) (index df)); cbn [index columns];
    apply Forall_map; eapply Forall_impl; [|exact H| |exact H];
    intros [n c] Hc; cbn [fst snd] in *.
  - destruct (str_eqb n name); cbn [snd]; [|exact Hc].
    unfold set_rows. rewrite length_map, length_combine, Hc. apply Nat.min_id.
  - rewrite !length_app, Hc. reflexivity.
Qed.

(** X15: [update_excel_file] keeps the table rectangular: when every
    column of the catalog has one cell per row, so has every column of
    the result, also when rows are added for match positions outside the
    catalog. *)
Theorem frame_stays_rectangular (df : DataFrame) (matches : dict nat match_info) :
  rectangular df -> rectangular (update_excel_file df matches).
Proof.
  intros H. unfold update_excel_file.
  assert (H0 : rectangular
                 (set_column match_confidence (Text [])
                    (set_column file_name (Text []) df)))
    by now do 2 apply set_column_rectangular.
  revert H0. generalize (set_column match_confidence (Text [])
                           (set_column file_name (Text []) df)).
  induction matches as [|[idx info] rest IH]; intros d Hd; [exact Hd|].
  cbn [fold_left]. apply IH. unfold fill_match.
  now do 2 apply loc_set_rectangular.
Qed.

Lemma frame_stays_rectangular_witness :
  rectangular Samples.plain_frame
  /\ rectangular (update_excel_file Samples.plain_frame [(5, MatchInfo (py "d.pdf") (py "y") 87 partial)]).
Proof.
  assert (H : rectangular Samples.plain_frame) by (repeat constructor).
  split; [exact H|].
  exact (@frame_stays_rectangular Samples.plain_frame _ H).
Defined.

End RectangularFacts.

(** ** The matcher and the reporter together *)

Section Pipeline.

Variables token_sort_ratio partial_ratio token_set_ratio : str -> str -> Z.
Variable pdf_titles : dict str str.

Lemma sorted_NoDup (l : list nat) : StronglySorted lt l -> NoDup l.
Proof.
  induction 1 as [|a l Hs IH Hall]; constructor; [|exact IH].
  intros Hin. rewrite Forall_forall in Hall. apply Hall in Hin. lia.
Qed.

(** X16: the matches that [match_titles_fuzzy] returns for a catalog fit
    the frame read from this catalog: with rows labelled 0 to n-1 for the
    n articles and no column named [File Name] or [Match Confidence],
    [update_excel_file] adds no row and fills the two new columns from
    the matches, row by row. *)
Theorem matches_fit_catalog (threshold : Z) (excel_titles : list (option str))
    (df : DataFrame) :
  range_index (length excel_titles) df ->
  ~ In file_name (keys (columns df)) ->
  ~ In match_confidence (keys (columns df)) ->
  exists matches unmatched_articles unmatched_pdfs,
    match_titles_fuzzy token_sort_ratio partial_ratio token_set_ratio
      pdf_titles threshold excel_titles
    = Some (matches, unmatched_articles, unmatched_pdfs)
    /\ update_excel_file df matches
       = augmented df (file_name_cell matches) (confidence_cell matches)
    /\ index (update_excel_file df matches) = seq 0 (length excel_titles).
Proof.
  intros Hidx H1 H2.
  do 3 eexists. split; [apply match_titles_fuzzy_eq|].
  set (m := matched_from token_sort_ratio partial_ratio token_set_ratio
              pdf_titles threshold 0 excel_titles).
  assert (E : update_excel_file df m
              = augmented df (file_name_cell m) (confidence_cell m)).
  { unfold update_excel_file.
    rewrite (@set_columns_augmented df H1 H2).
    rewrite (@fill_matches df H1 H2 m _ _
               (sorted_NoDup (matched_from_sorted _ _ _ _ _ _ _))).
    - apply augmented_ext; intros i; unfold file_name_cell, confidence_cell;
        destruct (dict_get Nat.eqb i m); reflexivity.
    - intros idx Hin. rewrite Hidx. apply in_seq.
      unfold keys in Hin. apply in_map_iff in Hin.
      destruct Hin as ([k info] & Hk & Hin). cbn in Hk. subst k.
      apply In_matched_from in Hin. destruct Hin as (j & e & -> & Hn & _).
      assert (j < length excel_titles) by (apply nth_error_Some; congruence).
      lia. }
  split; [exact E|]. rewrite E. exact Hidx.
Qed.

End Pipeline.

Lemma matches_fit_catalog_witness :
  range_index (length Samples.two_articles) Samples.plain_frame
  /\ exists matches unmatched_articles unmatched_pdfs,
      match_titles_fuzzy exact_ratio exact_ratio exact_ratio Samples.one_pdf 60
        Samples.two_articles
      = Some (matches, unmatched_articles, unmatched_pdfs)
      /\ index (update_excel_file Samples.plain_frame matches) = [0; 1].
Proof.
  split; [reflexivity|].
  destruct (@matches_fit_catalog exact_ratio exact_ratio exact_ratio
              Samples.one_pdf 60%Z Samples.two_articles Samples.plain_frame
              eq_refl)
    as (m & u & p & Hrun & _ & Hi).
  - cbn. intros [H|[]]. discriminate H.
  - cbn. intros [H|[]]. discriminate H.
  - now exists m, u, p.
Defined.

(** ** The Corpus Indexer *)

Section IndexerFacts.

(** X17: [extract_pdf_title] reads the first [max_pages] pages only: the
    pages after them, readable or not, do not change the title. *)
Theorem only_first_pages (first rest : list (option str)) (max_pages : nat) :
  length first = max_pages ->
  extract_pdf_title (Some (first ++ rest)) max_pages
  = extract_pdf_title (Some first) max_pages.
Proof.
  intros H. unfold extract_pdf_title.
  rewrite length_app, H.
  replace (Nat.min max_pages (max_pages + length rest)) with max_pages by lia.
  rewrite Nat.min_id.
  rewrite firstn_app, H, Nat.sub_diag, firstn_0, app_nil_r. reflexivity.
Qed.

Lemma only_first_pages_witness :
  extract_pdf_title (Some MoreSamples.three_pages) 2
  = Some (py "Study of Fuzzy Reconciliation Systems").
Proof.
  change MoreSamples.three_pages
    with ([Some (py "A Study of Fuzzy Reconciliation Systems");
           Some (py "page two")] ++ [@None str]).
  rewrite (@only_first_pages
             [Some (py "A Study of Fuzzy Reconciliation Systems");
              Some (py "page two")] [None] 2 eq_refl).
  vm_compute. reflexivity.
Defined.

Lemma read_pages_blank (pages : list (option str)) :
  forall text,
    Forall (fun page => exists s, page = Some s /\ forallb isspace s = true) pages ->
    forallb isspace text = true ->
    exists t, read_pages pages text = Some t /\ forallb isspace t = true.
Proof.
  induction pages as [|page rest IH]; intros text Hp Ht.
  - now exists text.
  - inversion Hp as [|? ? (s & -> & Hs) Hrest]; subst.
    cbn [read_pages]. apply IH; [exact Hrest|].
    rewrite !forallb_app, Ht, Hs. reflexivity.
Qed.

(** X18: a file whose pages have white space only, or that has no page,
    gives no title: [extract_pdf_title] returns [None]. *)
Theorem blank_pdf_no_title (pages : list (option str)) (max_pages : nat) :
  Forall (fun page => exists s, page = Some s /\ forallb isspace s = true) pages ->
  extract_pdf_title (Some pages) max_pages = None.
Proof.
  intros H. unfold extract_pdf_title.
  set (n := Nat.min max_pages (length pages)).
  assert (Hf : Forall (fun page => exists s, page = Some s
                                             /\ forallb isspace s = true)
                 (firstn n pages)).
  { rewrite Forall_forall in *. intros x Hx. apply H.
    eapply In_firstn. exact Hx. }
  destruct (read_pages_blank [] Hf eq_refl) as (t & Hr & Ht).
  rewrite Hr, (strip_blank _ Ht). reflexivity.
Qed.

Lemma blank_pdf_no_title_witness :
  extract_pdf_title (Some [Some MoreSamples.blank_text; Some []]) 2 = None.
Proof.
  apply (@blank_pdf_no_title [Some MoreSamples.blank_text; Some []] 2).
  repeat constructor; eexists; split; reflexivity.
Defined.

(** *** The index *)

Lemma dict_set_In {V} (k k0 : str) (v v0 : V) (d : dict str V) :
  In (k, v) (dict_set str_eqb k0 v0 d) -> (k = k0 /\ v = v0) \/ In (k, v) d.
Proof.
  induction d as [|[k' v'] rest IH]; cbn [dict_set].
  - intros [[= <- <-]|[]]. now left.
  - destruct (str_eqb k0 k') eqn:E.
    + apply str_eqb_eq in E. subst k'.
      intros [[= <- <-]|H]; [now left | right; now right].
    + intros [H|H]; [right; now left|].
      destruct (IH H) as [Hk|Hin]; [now left | right; now right].
Qed.

Lemma dict_set_keys {V} (k : str) (v : V) (d : dict str V) :
  keys (dict_set str_eqb k v d) = keys d
  \/ (~ In k (keys d) /\ keys (dict_set str_eqb k v d) = keys d ++ [k]).
Proof.
  induction d as [|[k' v'] rest IH]; cbn [dict_set keys map fst].
  - right. split; [intros [] | reflexivity].
  - destruct (str_eqb k k') eqn:E; [now left|].
    apply str_eqb_neq in E. unfold keys in IH.
    destruct IH as [IH|[Hn IH]]; [left | right]; cbn [map fst].
    + now rewrite IH.
    + split; [intros [H|H]; [congruence | contradiction]|].
      cbn [app]. now rewrite IH.
Qed.

Lemma dict_set_key_In {V} (k : str) (v : V) (d : dict str V) :
  In k (keys (dict_set str_eqb k v d))
  /\ forall k', In k' (keys d) -> In k' (keys (dict_set str_eqb k v d)).
Proof.
  destruct (dict_set_keys k v d) as [E|[Hn E]]; rewrite E.
  - split; [|auto]. unfold keys in *.
    assert (H : In k (map fst (dict_set str_eqb k v d))).
    { clear E. induction d as [|[k' v'] rest IH]; cbn [dict_set map fst].
      - now left.
      - destruct (str_eqb k k') eqn:E'.
        + apply str_eqb_eq in E'. subst. now left.
        + right. exact IH. }
    now rewrite E in H.
  - split; [apply in_or_app; right; now left|].
    intros k' H. apply in_or_app. now left.
Qed.

Lemma dict_set_NoDup {V} (k : str) (v : V) (d : dict str V) :
  NoDup (keys d) -> NoDup (keys (dict_set str_eqb k v d)).
Proof.
  intros H. destruct (dict_set_keys k v d) as [E|[Hn E]]; rewrite E; [exact H|].
  apply NoDup_app; [exact H | repeat constructor; intros [] |].
  intros x Hx [<-|[]]. contradiction.
Qed.

Lemma index_file_from_files (pdf_files : list (str * pdf)) (d : dict str str)
    (pdf_file : str * pdf) :
  In pdf_file pdf_files -> from_files pdf_files d ->
  from_files pdf_files (index_file d pdf_file).
Proof.
  intros Hin [Hnd Hd]. destruct pdf_file as [name reader].
  unfold index_file. cbn [fst snd].
  destruct (extract_pdf_title reader 2) as [[|c t]|] eqn:E;
    try (split; assumption).
  split; [now apply dict_set_NoDup|].
  intros n title H. apply dict_set_In in H.
  destruct H as [[-> ->]|H]; [|now apply Hd].
  split; [discriminate|]. now exists reader.
Qed.

Lemma fold_index_from_files (pdf_files : list (str * pdf)) :
  forall (some : list (str * pdf)) (d : dict str str),
    incl some pdf_files -> from_files pdf_files d ->
    from_files pdf_files (fold_left index_file some d).
Proof.
  induction some as [|f rest IH]; intros d Hincl Hd; [exact Hd|].
  cbn [fold_left]. apply IH.
  - intros x Hx. apply Hincl. now right.
  - apply index_file_from_files; [|exact Hd]. apply Hincl. now left.
Qed.

Lemma index_file_keeps_keys (d : dict str str) (pdf_file : str * pdf) (k : str) :
  In k (keys d) -> In k (keys (index_file d pdf_file)).
Proof.
  intros H. unfold index_file.
  destruct (extract_pdf_title (snd pdf_file) 2) as [[|c t]|]; try exact H.
  now apply dict_set_key_In.
Qed.

Lemma fold_index_keeps_keys (some : list (str * pdf)) :
  forall (d : dict str str) (k : str),
    In k (keys d) -> In k (keys (fold_left index_file some d)).
Proof.
  induction some as [|f rest IH]; intros d k H; [exact H|].
  cbn [fold_left]. apply IH. now apply index_file_keeps_keys.
Qed.

Lemma fold_index_has_key (some : list (str * pdf)) :
  forall (d : dict str str) (name : str) (reader : pdf) (c : ascii) (t : str),
    In (name, reader) some ->
    extract_pdf_title reader 2 = Some (c :: t) ->
    In name (keys (fold_left index_file some d)).
Proof.
  induction some as [|f rest IH]; intros d name reader c t Hin He; [destruct Hin|].
  cbn [fold_left]. destruct Hin as [->|Hin].
  - apply fold_index_keeps_keys. unfold index_file. cbn [fst snd].
    rewrite He. exact (proj1 (@dict_set_key_In _ name (c :: t) d)).
  - eapply IH; eassumption.
Qed.

(** X19: the index [process_all_pdfs] builds has every file name once;
    each of its titles is a non-empty string and is what
    [extract_pdf_title] gives for a file of that name; and every file
    with a non-empty title has its name in the index.  A file that cannot
    be read, or has no title, adds nothing and stops nothing. *)
Theorem index_entries (pdf_files : list (str * pdf)) :
  NoDup (keys (process_all_pdfs pdf_files))
  /\ (forall name title,
        In (name, title) (process_all_pdfs pdf_files) ->
        title <> []
        /\ exists reader,
            In (name, reader) pdf_files
            /\ extract_pdf_title reader 2 = Some title)
  /\ (forall name reader title,
        In (name, reader) pdf_files ->
        extract_pdf_title reader 2 = Some title ->
        title <> [] ->
        In name (keys (process_all_pdfs pdf_files))).
Proof.
  unfold process_all_pdfs.
  destruct (@fold_index_from_files pdf_files pdf_files [])
    as [Hnd Hd].
  - intros x Hx. exact Hx.
  - split; [constructor | intros n t []].
  - split; [exact Hnd|]. split; [exact Hd|].
    intros name reader [|c t] Hin He Hne; [congruence|].
    eapply fold_index_has_key; eassumption.
Qed.

End IndexerFacts.

(** ** The start of the title *)

Section StartFacts.

(** The lines the scan passes over: a header line, or a line of at most
    20 characters without a section label. *)
Lemma scan_start_skip (pre rest : list str) :
  Forall (fun line =>
            any_in header_words (lower line) = true
            \/ (any_in section_words (lower line) = false /\ length line <= 20))
         pre ->
  forall i, scan_start i (pre ++ rest) = scan_start (i + length pre) rest.
Proof.
  induction 1 as [|line pre Hline Hpre IH]; intros i.
  - cbn [app length]. now rewrite Nat.add_0_r.
  - cbn [app length scan_start].
    replace (i + S (length pre)) with (S i + length pre) by lia.
    destruct Hline as [Hh|[Hs Hl]].
    + rewrite Hh. apply IH.
    + destruct (any_in header_words (lower line)); [apply IH|].
      rewrite Hs. apply Nat.ltb_ge in Hl. rewrite Hl. cbn [andb]. apply IH.
Qed.

Lemma firstn_15_app (pre : list str) (line : str) (rest : list str) :
  length pre < 15 ->
  exists rest', firstn 15 (pre ++ line :: rest) = pre ++ line :: rest'.
Proof.
  intros H. rewrite firstn_app, firstn_all2 by lia.
  destruct (15 - length pre) as [|k] eqn:E; [lia|].
  cbn [firstn]. now eexists.
Qed.

(** X20: when the lines in front of it are header lines or short lines
    without a section label, a line among the first fifteen that has a
    section label and no header word makes the title start at the line
    after it.  (A line with a header word is passed over before its
    section label is looked at.) *)
Theorem section_label_start (pre rest : list str) (line : str) :
  Forall (fun l =>
            any_in header_words (lower l) = true
            \/ (any_in section_words (lower l) = false /\ length l <= 20))
         pre ->
  length pre < 15 ->
  any_in header_words (lower line) = false ->
  any_in section_words (lower line) = true ->
  title_start_idx (pre ++ line :: rest) = S (length pre).
Proof.
  intros Hpre Hlen Hh Hs. unfold title_start_idx.
  destruct (firstn_15_app pre line rest Hlen) as (rest' & ->).
  rewrite (scan_start_skip _ Hpre). cbn [scan_start Nat.add].
  now rewrite Hh, Hs.
Qed.

Lemma section_label_start_witness :
  title_start_idx
    ([py "Vol. 3, No. 2"] ++ py "Original Article" :: [py "Soft Grippers"])
  = 2.
Proof.
  apply (@section_label_start [py "Vol. 3, No. 2"] [py "Soft Grippers"]
           (py "Original Article")).
  - constructor; [left; vm_compute; reflexivity | constructor].
  - cbn. lia.
  - vm_compute. reflexivity.
  - vm_compute. reflexivity.
Defined.

(** X21: when the lines in front of it are header lines or short lines
    without a section label, a line of more than 20 characters among the
    first ten lines, with neither a header word nor a section label, is
    where the title starts. *)
Theorem long_line_start (pre rest : list str) (line : str) :
  Forall (fun l =>
            any_in header_words (lower l) = true
            \/ (any_in section_words (lower l) = false /\ length l <= 20))
         pre ->
  length pre < 10 ->
  any_in header_words (lower line) = false ->
  any_in section_words (lower line) = false ->
  20 < length line ->
  title_start_idx (pre ++ line :: rest) = length pre.
Proof.
  intros Hpre Hlen Hh Hs Hl. unfold title_start_idx.
  destruct (firstn_15_app pre line rest) as (rest' & ->); [lia|].
  rewrite (scan_start_skip _ Hpre). cbn [scan_start Nat.add].
  rewrite Hh, Hs.
  apply Nat.ltb_lt in Hl. apply Nat.ltb_lt in Hlen. now rewrite Hl, Hlen.
Qed.

Lemma long_line_start_witness :
  title_start_idx
    ([py "Vol. 3, No. 2"] ++ py "Soft Grippers for Legged Robots" :: [])
  = 1.
Proof.
  apply (@long_line_start [py "Vol. 3, No. 2"] []
           (py "Soft Grippers for Legged Robots")).
  - constructor; [left; vm_compute; reflexivity | constructor].
  - cbn. lia.
  - vm_compute. reflexivity.
  - vm_compute. reflexivity.
  - vm_compute. lia.
Defined.

End StartFacts.

(** ** Longer catalogs *)

Section AppendFacts.

Variables token_sort_ratio partial_ratio token_set_ratio : str -> str -> Z.
Variable pdf_titles : dict str str.
Variable threshold : Z.

Local Abbreviation matched_from :=
  (matched_from token_sort_ratio partial_ratio token_set_ratio pdf_titles
     threshold).
Local Abbreviation unmatched_from :=
  (unmatched_from token_sort_ratio partial_ratio token_set_ratio pdf_titles
     threshold).

Lemma matched_from_app (first rest : list (option str)) :
  forall idx,
    matched_from idx (first ++ rest)
    = matched_from idx first ++ matched_from (idx + length first) rest.
Proof.
  induction first as [|[e|] first IH]; intros idx;
    cbn [app length Matcher.matched_from].
  - now rewrite Nat.add_0_r.
  - replace (idx + S (length first)) with (S idx + length first) by lia.
    destruct (record_match _ _ _ _ _ e); cbn [app]; now rewrite IH.
  - replace (idx + S (length first)) with (S idx + length first) by lia.
    apply IH.
Qed.

Lemma unmatched_from_app (first rest : list (option str)) :
  forall idx,
    unmatched_from idx (first ++ rest)
    = unmatched_from idx first ++ unmatched_from (idx + length first) rest.
Proof.
  induction first as [|[e|] first IH]; intros idx;
    cbn [app length Matcher.unmatched_from].
  - now rewrite Nat.add_0_r.
  - replace (idx + S (length first)) with (S idx + length first) by lia.
    destruct (record_match _ _ _ _ _ e); cbn [app]; now rewrite IH.
  - replace (idx + S (length first)) with (S idx + length first) by lia.
    apply IH.
Qed.

(** X22: articles added at the end of the catalog change nothing for the
    articles before them: the matches and the unmatched articles of the
    longer catalog begin with those of the shorter one, in the same
    order, and the further entries are at positions after it. *)
Theorem catalog_append (first rest : list (option str)) :
  exists matches1 unmatched1 pdfs1 matches2 unmatched2 pdfs2 more_matches
         more_unmatched,
    match_titles_fuzzy token_sort_ratio partial_ratio token_set_ratio
      pdf_titles threshold first = Some (matches1, unmatched1, pdfs1)
    /\ match_titles_fuzzy token_sort_ratio partial_ratio token_set_ratio
         pdf_titles threshold (first ++ rest)
       = Some (matches2, unmatched2, pdfs2)
    /\ matches2 = matches1 ++ more_matches
    /\ unmatched2 = unmatched1 ++ more_unmatched
    /\ (forall idx, In idx (keys more_matches) -> length first <= idx)
    /\ (forall idx, In idx (map fst more_unmatched) -> length first <= idx)
    /\ incl pdfs2 pdfs1.
Proof.
  do 6 eexists.
  exists (matched_from (length first) rest), (unmatched_from (length first) rest).
  split; [apply match_titles_fuzzy_eq|].
  split; [apply match_titles_fuzzy_eq|].
  split; [apply (matched_from_app first rest 0)|].
  split; [apply (unmatched_from_app first rest 0)|].
  split; [intros idx H; now apply matched_from_keys_ge in H|].
  split; [intros idx H; now apply unmatched_from_keys_ge in H|].
  intros name H. apply filter_In in H. destruct H as [Hk Hn].
  apply filter_In. split; [exact Hk|].
  unfold not_matched in *. apply negb_true_iff in Hn. apply negb_true_iff.
  destruct (existsb (str_eqb name)
              (map filename (values (matched_from 0 first)))) eqn:E;
    [|reflexivity].
  rewrite <- Hn. symmetry. apply existsb_exists.
  apply existsb_exists in E. destruct E as (x & Hx & Hxe). exists x.
  split; [|exact Hxe].
  rewrite (matched_from_app first rest 0). unfold values.
  rewrite !map_app. apply in_or_app. now left.
Qed.

End AppendFacts.
